(** * ai_safety_digest.py: collection, resolution and aggregation

    A shallow embedding of the ingestion pipeline of [ai_safety_digest.py]
    (class [ContentFetcher] and the resolution loop of [main]) together with
    the properties its specification states about it.

    Conventions.
    - A Python [str] is a list of characters; a character is a code point
      below 256, so the whitespace and line-boundary classes below are the
      ones of [str.isspace] and [str.splitlines] restricted to that range.
    - Python integers are [Z]; a slice [s[:n]] is [firstn] of [Z.to_nat n].
    - Library calls that can fail return a [result]; an exception is known
      by what [str(e)] prints.
    - Code with effects (temporary file, standard output) runs in the monad
      [M] over the state [World].  Writing to standard output and to the
      two files under [/tmp] is taken to succeed; what a library call
      answers is read off as given, each call being made at most once per
      fetch. *)

From Stdlib Require Import Ascii String ZArith Lia Bool Arith ListSet Sorted
  Permutation List.
From Stdlib Require DecimalString.
Import ListNotations.

(** ** Python strings *)

Module PyStr.

Definition str := list ascii.

Definition lit (s : string) : str := list_ascii_of_string s.

Definition str_eq_dec : forall a b : str, {a = b} + {a <> b} :=
  list_eq_dec ascii_dec.

Definition str_eqb (a b : str) : bool :=
  if str_eq_dec a b then true else false.

Definition code (c : ascii) : N := N_of_ascii c.

Definition in_range (lo hi : N) (c : ascii) : bool :=
  (N.leb lo (code c) && N.leb (code c) hi)%bool.

(** [c.isspace()]: U+0009..U+000D, U+001C..U+001F, U+0020, U+0085, U+00A0. *)
Definition is_space (c : ascii) : bool :=
  in_range 9 13 c || in_range 28 31 c || N.eqb (code c) 32
  || N.eqb (code c) 133 || N.eqb (code c) 160.

(** Line boundaries of [str.splitlines]: LF, VT, FF, CR, FS, GS, RS, NEL. *)
Definition is_linebreak (c : ascii) : bool :=
  in_range 10 13 c || in_range 28 30 c || N.eqb (code c) 133.

Definition LF : ascii := ascii_of_N 10.
Definition CR : ascii := ascii_of_N 13.
Definition SP : ascii := ascii_of_N 32.

Fixpoint dropwhile (p : ascii -> bool) (s : str) : str :=
  match s with
  | [] => []
  | c :: s' => if p c then dropwhile p s' else s
  end.

Definition lstrip (s : str) : str := dropwhile is_space s.
Definition rstrip (s : str) : str := rev (dropwhile is_space (rev s)).

(** [s.strip()] *)
Definition strip (s : str) : str := rstrip (lstrip s).

(** [s.startswith(p)] *)
Fixpoint startswith (p s : str) : bool :=
  match p, s with
  | [], _ => true
  | _ :: _, [] => false
  | a :: p', b :: s' => if ascii_dec a b then startswith p' s' else false
  end.

(** [s.endswith(p)] *)
Definition endswith (p s : str) : bool := startswith (rev p) (rev s).

(** [sub in s] *)
Fixpoint contains (sub s : str) : bool :=
  match s with
  | [] => startswith sub []
  | _ :: s' => startswith sub s || contains sub s'
  end.

(** [s.replace(old, new)]: occurrences are replaced from the left and do not
    overlap; [skip] counts the characters of an occurrence still to pass. *)
Fixpoint replace_from (old new : str) (skip : nat) (s : str) : str :=
  match s with
  | [] => []
  | c :: s' =>
      match skip with
      | S k => replace_from old new k s'
      | O =>
          if startswith old s
          then new ++ replace_from old new (length old - 1) s'
          else c :: replace_from old new 0 s'
      end
  end.

Definition replace (old new s : str) : str :=
  match old with
  | [] => new ++ flat_map (fun c => c :: new) s
  | _ :: _ => replace_from old new 0 s
  end.

(** [s[:n]] for [0 <= n] *)
Definition slice_to (n : Z) (s : str) : str := firstn (Z.to_nat n) s.

(** [sep.join(l)] *)
Fixpoint join (sep : str) (l : list str) : str :=
  match l with
  | [] => []
  | [x] => x
  | x :: l' => x ++ sep ++ join sep l'
  end.

(** [s.splitlines()]; [cur] holds the current line, reversed.  A CR directly
    followed by LF is one boundary; a text that ends at a boundary has no
    last empty line. *)
Fixpoint splitlines_from (cur : str) (s : str) : list str :=
  match s with
  | [] => match cur with [] => [] | _ :: _ => [rev cur] end
  | c :: s' =>
      if is_linebreak c then
        rev cur ::
          (if ascii_dec c CR then
             match s' with
             | c' :: s'' =>
                 if ascii_dec c' LF then splitlines_from [] s''
                 else splitlines_from [] s'
             | [] => splitlines_from [] s'
             end
           else splitlines_from [] s')
      else splitlines_from (c :: cur) s'
  end.

Definition splitlines (s : str) : list str := splitlines_from [] s.

(** [s.split("  ")]: cut at every pair of spaces, from the left. *)
Fixpoint split2_from (cur : str) (s : str) : list str :=
  match s with
  | [] => [rev cur]
  | c :: s' =>
      if ascii_dec c SP then
        match s' with
        | c' :: s'' =>
            if ascii_dec c' SP then rev cur :: split2_from [] s''
            else split2_from (c :: cur) s'
        | [] => split2_from (c :: cur) s'
        end
      else split2_from (c :: cur) s'
  end.

Definition split2 (s : str) : list str := split2_from [] s.

End PyStr.

Import PyStr.

(** ** URL detection: [re.findall(url_pattern, text)]

    [url_pattern] is
    [http[s]?://(?:[a-zA-Z]|[0-9]|[$-_@.&+]|[!*\\(\\),]|(?:%[0-9a-fA-F][0-9a-fA-F]))+].
    The group matches one character of the first four classes (the third is
    the range from [$] to [_] with [@], [.], [&], [+]; the fourth holds [!],
    [*], the backslash, the parentheses and the comma) or a percent escape.
    The percent sign lies in the third class, which is tried first, so the
    greedy repetition consumes the longest run of class characters and the
    last alternative is never taken. *)

Definition url_char (c : ascii) : bool :=
  (in_range 97 122 c || in_range 65 90 c)
  || in_range 48 57 c
  || (in_range 36 95 c || N.eqb (code c) 64 || N.eqb (code c) 46
      || N.eqb (code c) 38 || N.eqb (code c) 43)
  || (N.eqb (code c) 33 || N.eqb (code c) 42 || N.eqb (code c) 92
      || N.eqb (code c) 40 || N.eqb (code c) 41 || N.eqb (code c) 44).

Fixpoint takewhile (p : ascii -> bool) (s : str) : str :=
  match s with
  | [] => []
  | c :: s' => if p c then c :: takewhile p s' else []
  end.

(** The scheme [http[s]?://] at the head of [s]: the matched prefix and what
    follows it. *)
Definition match_scheme (s : str) : option (str * str) :=
  if startswith (lit "https://") s then Some (lit "https://", skipn 8 s)
  else if startswith (lit "http://") s then Some (lit "http://", skipn 7 s)
  else None.

(** A match of [url_pattern] that starts at the head of [s]. *)
Definition match_url (s : str) : option str :=
  match match_scheme s with
  | Some (scheme, rest) =>
      match takewhile url_char rest with
      | [] => None
      | body => Some (scheme ++ body)
      end
  | None => None
  end.

(** The scan of [findall]: matches are taken from the left and do not
    overlap; [skip] counts the characters of the last match still to pass. *)
Fixpoint findall_from (skip : nat) (s : str) : list str :=
  match s with
  | [] => []
  | _ :: s' =>
      match skip with
      | S k => findall_from k s'
      | O =>
          match match_url s with
          | Some m => m :: findall_from (length m - 1) s'
          | None => findall_from 0 s'
          end
      end
  end.

Definition findall_url (text : str) : list str := findall_from 0 text.

(** ** Exceptions, results and the state of the run *)

(** An exception caught by [except Exception as e], known by [str(e)]. *)
Record Exn := { exn_str : str }.

Inductive result (A : Type) : Type :=
| Ok (a : A)
| Raise (e : Exn).
Arguments Ok {A} a.
Arguments Raise {A} e.

Definition bytes := list Byte.byte.

(** A line written by [print]. *)
Inductive Line :=
| Channel_not_found (channel_name : str)
| Found_unique_URLs (n : nat)
| Gmail_not_configured
| Found_newsletters (n : nat)
| Processing_URL (url : str)
| Error_downloading_PDF (pdf_url : str) (e : Exn)
| Error_fetching_webpage (url : str) (e : Exn)
| Successfully_processed (n : nat).

(** The state the code acts on: the files it writes, by path, and the lines
    printed so far. *)
Record World := {
  fs : str -> option bytes;
  stdout : list Line
}.

Definition M (A : Type) : Type := World -> result A * World.

Definition ret {A} (a : A) : M A := fun w => (Ok a, w).

Definition bind {A B} (c : M A) (k : A -> M B) : M B :=
  fun w =>
    match c w with
    | (Ok a, w') => k a w'
    | (Raise e, w') => (Raise e, w')
    end.

Definition raise {A} (e : Exn) : M A := fun w => (Raise e, w).

(** A library call whose result does not depend on the state. *)
Definition call {A} (r : result A) : M A := fun w => (r, w).

(** [try: body except Exception as e: handler(e)] *)
Definition try_except {A} (body : M A) (handler : Exn -> M A) : M A :=
  fun w =>
    match body w with
    | (Ok a, w') => (Ok a, w')
    | (Raise e, w') => handler e w'
    end.

Declare Scope py_scope.
Delimit Scope py_scope with py.
Notation "x <- c ;; k" := (bind c (fun x => k))
  (at level 61, c at next level, right associativity) : py_scope.
Notation "c ;; k" := (bind c (fun _ => k))
  (at level 61, right associativity) : py_scope.
Open Scope py_scope.

Definition print (l : Line) : M unit :=
  fun w => (Ok tt, {| fs := fs w; stdout := stdout w ++ [l] |}).

(** [with open(path, 'wb') as f: f.write(data)] *)
Definition write_file (path : str) (data : bytes) : M unit :=
  fun w =>
    (Ok tt,
     {| fs := fun p => if str_eq_dec p path then Some data else fs w p;
        stdout := stdout w |}).

Definition FileNotFoundError (path : str) : Exn :=
  {| exn_str := lit "[Errno 2] No such file or directory: '" ++ path ++ lit "'" |}.

(** [os.remove(path)] *)
Definition os_remove (path : str) : M unit :=
  fun w =>
    match fs w path with
    | Some _ =>
        (Ok tt,
         {| fs := fun p => if str_eq_dec p path then None else fs w p;
            stdout := stdout w |})
    | None => (Raise (FileNotFoundError path), w)
    end.

(** The bytes of the file at [path], as a library that opens it reads them. *)
Definition read_file (path : str) : M bytes :=
  fun w =>
    match fs w path with
    | Some data => (Ok data, w)
    | None => (Raise (FileNotFoundError path), w)
    end.

(** ** External services and libraries

    What the code gets from the network and from the libraries it calls is
    not part of it: the clients are records of the answers they give. *)

(** A chat channel, a message and one page of [conversations_history]. *)
Record Channel := { channel_name : str; channel_id : str }.

Record Message := { message_text : option str }.

Record HistoryPage := {
  messages : list Message;
  has_more : bool;
  next_cursor : str
}.

(** [slack_sdk.WebClient]: the history of a channel from [oldest] on comes a
    page at a time, the page after the first through [cursor]. *)
Record WebClient := {
  conversations_list : result (list Channel);
  conversations_history :
    forall (channel : str) (oldest : Z) (cursor : option str), result HistoryPage
}.

(** One part of a mailbox message and the payload that holds them;
    [body_data] is [body.get('data')]. *)
Record Part := { mimeType : str; body_data : option str }.

Record Header := { header_name : str; header_value : str }.

Record Payload := {
  headers : list Header;
  parts : option (list Part);
  payload_data : option str
}.

Record Newsletter := { subject : str; body : str; newsletter_id : str }.

(** The mailbox service: the ids that match a query ([None] when the answer
    has no ['messages'] key) and the payload of a message. *)
Record GmailService := {
  messages_list : str -> result (option (list str));
  messages_get : str -> result Payload
}.

(** The answer of [requests.get]. *)
Record Response := {
  status_error : option Exn;   (* what [raise_for_status] raises, if it does *)
  response_content : bytes;
  response_text : str
}.

(** A page of a PDF: [extract_text()] gives text, [None], or fails. *)
Record Page := { extract_text : result (option str) }.

Record Env := {
  (* [requests.get(url, timeout=30, headers=...)], by [User-Agent] *)
  requests_get : str -> option str -> result Response;
  (* [pdfplumber.open(path).pages], by the bytes of the file *)
  pdfplumber_pages : bytes -> result (list Page);
  (* [BeautifulSoup(html, 'html.parser')], script and style elements
     decomposed, then [get_text()] *)
  soup_get_text : str -> result str;
  (* [base64.urlsafe_b64decode(data).decode('utf-8')] *)
  b64decode_utf8 : str -> result str;
  (* [datetime.now().timestamp()], in seconds *)
  now : Z
}.

(** ** The result of resolving one reference: the dictionary with keys
    ['url'], ['type'], ['content'], ['success'] and, on failure, ['error']. *)
Record RetrievalOutcome := {
  url : str;
  type : str;
  content : str;
  success : bool;
  error : option str
}.

(** ** class ContentFetcher *)

Section ContentFetcher.

Variable env : Env.

(** *** fetch_slack_urls *)

(** Lines 46-49: the id of the first channel with the given name. *)
Fixpoint find_channel_id (channels : list Channel) (name : str) : option str :=
  match channels with
  | [] => None
  | channel :: rest =>
      if str_eq_dec (channel_name channel) name then Some (channel_id channel)
      else find_channel_id rest name
  end.

(** Lines 68-71: the URLs of all messages, in message order. *)
Fixpoint extract_urls (msgs : list Message) : list str :=
  match msgs with
  | [] => []
  | message :: rest =>
      let text := match message_text message with Some t => t | None => [] end in
      findall_url text ++ extract_urls rest
  end.

(** Lines 74-79: the loop that removes duplicates. *)
Fixpoint unique_loop (seen : set str) (unique_urls : list str) (urls : list str)
  : list str :=
  match urls with
  | [] => unique_urls
  | url :: rest =>
      if set_mem str_eq_dec url seen
      then unique_loop seen unique_urls rest
      else unique_loop (set_add str_eq_dec url seen) (unique_urls ++ [url]) rest
  end.

Definition unique (urls : list str) : list str := unique_loop (empty_set str) [] urls.

Definition fetch_slack_urls (client : WebClient) (name : str) (days_back : Z)
  : M (list str) :=
  channels <- call (conversations_list client) ;;
  match find_channel_id channels name with
  | None | Some [] =>
      print (Channel_not_found name) ;;
      ret []
  | Some channel_id =>
      let oldest := (now env - days_back * 86400)%Z in
      result <- call (conversations_history client channel_id oldest None) ;;
      let urls := extract_urls (messages result) in
      let unique_urls := unique urls in
      print (Found_unique_URLs (length unique_urls)) ;;
      ret unique_urls
  end.

(** *** _get_email_body *)

Definition text_plain : str := lit "text/plain".
Definition text_html : str := lit "text/html".

(** Lines 126-134: the first part, in part order, that is plain text or HTML
    and has data decides the body. *)
Fixpoint body_of_parts (ps : list Part) : result str :=
  match ps with
  | [] => Ok []
  | part :: rest =>
      if str_eq_dec (mimeType part) text_plain then
        match body_data part with
        | Some ((_ :: _) as data) => b64decode_utf8 env data
        | _ => body_of_parts rest
        end
      else if str_eq_dec (mimeType part) text_html then
        match body_data part with
        | Some ((_ :: _) as data) => b64decode_utf8 env data
        | _ => body_of_parts rest
        end
      else body_of_parts rest
  end.

Definition _get_email_body (payload : Payload) : result str :=
  match parts payload with
  | Some ps => body_of_parts ps
  | None =>
      match payload_data payload with
      | Some ((_ :: _) as data) => b64decode_utf8 env data
      | _ => Ok []
      end
  end.

(** *** fetch_gmail_newsletters *)

Fixpoint find_subject (hs : list Header) : str :=
  match hs with
  | [] => []
  | header :: rest =>
      if str_eq_dec (header_name header) (lit "Subject") then header_value header
      else find_subject rest
  end.

Fixpoint newsletters_loop (service : GmailService) (ids : list str)
    (newsletters : list Newsletter) : M (list Newsletter) :=
  match ids with
  | [] => ret newsletters
  | msg_id :: rest =>
      full_msg <- call (messages_get service msg_id) ;;
      let subject := find_subject (headers full_msg) in
      body <- call (_get_email_body full_msg) ;;
      newsletters_loop service rest
        (newsletters ++ [{| subject := subject; body := body; newsletter_id := msg_id |}])
  end.

(** [gmail] is [None] when no credentials are configured; [date_filter] is
    the day [days_back] days ago, printed as [%Y/%m/%d]. *)
Definition fetch_gmail_newsletters (gmail : option GmailService)
    (label_name date_filter : str) : M (list Newsletter) :=
  match gmail with
  | None => print Gmail_not_configured ;; ret []
  | Some service =>
      let query := lit "label:" ++ label_name ++ lit " after:" ++ date_filter in
      results <- call (messages_list service query) ;;
      let ids := match results with Some l => l | None => [] end in
      newsletters <- newsletters_loop service ids [] ;;
      print (Found_newsletters (length newsletters)) ;;
      ret newsletters
  end.

(** *** _download_pdf *)

Definition pdf_path : str := lit "/tmp/temp_paper.pdf".

Definition PDF_CAP : Z := 100000.
Definition WEB_CAP : Z := 50000.

(** [response.raise_for_status()] *)
Definition raise_for_status (response : Response) : M unit :=
  match status_error response with
  | Some e => raise e
  | None => ret tt
  end.

(** Lines 179-180: [text += page.extract_text() or ""] over the pages. *)
Fixpoint pages_text (pages : list Page) (text : str) : M str :=
  match pages with
  | [] => ret text
  | page :: rest =>
      t <- call (extract_text page) ;;
      pages_text rest (text ++ match t with Some s => s | None => [] end)
  end.

Definition _download_pdf (pdf_url original_url : str) : M RetrievalOutcome :=
  try_except
    (response <- call (requests_get env pdf_url None) ;;
     raise_for_status response ;;
     write_file pdf_path (response_content response) ;;
     data <- read_file pdf_path ;;
     pages <- call (pdfplumber_pages env data) ;;
     text <- pages_text pages [] ;;
     os_remove pdf_path ;;
     ret {| url := original_url;
            type := lit "pdf";
            content := slice_to PDF_CAP text;
            success := true;
            error := None |})
    (fun e =>
       print (Error_downloading_PDF pdf_url e) ;;
       ret {| url := original_url;
              type := lit "pdf";
              content := [];
              success := false;
              error := Some (exn_str e) |}).

(** *** _fetch_webpage *)

(** Lines 219-221: strip every line, cut the lines at pairs of spaces, strip
    the pieces and keep the ones that are not empty. *)
Definition clean_chunks (text : str) : list str :=
  let lines := map strip (splitlines text) in
  let chunks := flat_map (fun line => map strip (split2 line)) lines in
  filter (fun chunk => match chunk with [] => false | _ :: _ => true end) chunks.

Definition clean_text (text : str) : str := join [LF] (clean_chunks text).

Definition _fetch_webpage (url : str) : M RetrievalOutcome :=
  try_except
    (response <- call (requests_get env url (Some (lit "Mozilla/5.0"))) ;;
     raise_for_status response ;;
     text <- call (soup_get_text env (response_text response)) ;;
     let text := clean_text text in
     ret {| url := url;
            type := lit "webpage";
            content := slice_to WEB_CAP text;
            success := true;
            error := None |})
    (fun e =>
       print (Error_fetching_webpage url e) ;;
       ret {| url := url;
              type := lit "webpage";
              content := [];
              success := false;
              error := Some (exn_str e) |}).

(** *** download_paper_content *)

(** Lines 146-152: the URL the PDF of an arXiv reference is fetched from. *)
Definition arxiv_pdf_url (url : str) : str :=
  if contains (lit "/abs/") url then replace (lit "/abs/") (lit "/pdf/") url ++ lit ".pdf"
  else if contains (lit "/pdf/") url then
    (if endswith (lit ".pdf") url then url else url ++ lit ".pdf")
  else url.

Definition download_paper_content (url : str) : M RetrievalOutcome :=
  print (Processing_URL url) ;;
  if contains (lit "arxiv.org") url then
    _download_pdf (arxiv_pdf_url url) url
  else if endswith (lit ".pdf") url then
    _download_pdf url url
  else
    _fetch_webpage url.

(** ** main, steps 1 to 4 *)

Definition MAX_PAPERS : Z := 50.

(** Lines 384-386: the loop over the references. *)
Fixpoint papers_loop (urls : list str) (papers : list RetrievalOutcome)
  : M (list RetrievalOutcome) :=
  match urls with
  | [] => ret papers
  | url :: rest =>
      paper_content <- download_paper_content url ;;
      papers_loop rest (papers ++ [paper_content])
  end.

(** Lines 383-386 *)
Definition resolve_papers (slack_urls : list str) : M (list RetrievalOutcome) :=
  papers_loop (firstn (Z.to_nat MAX_PAPERS) slack_urls) [].

(** What [main] holds when it hands over to the digest generator. *)
Record Corpus := {
  corpus_papers : list RetrievalOutcome;
  corpus_newsletters : list Newsletter
}.

Definition main (client : WebClient) (gmail : option GmailService)
    (slack_channel gmail_label date_filter : str) (days_back : Z) : M Corpus :=
  slack_urls <- fetch_slack_urls client slack_channel days_back ;;
  newsletters <- fetch_gmail_newsletters gmail gmail_label date_filter ;;
  papers <- resolve_papers slack_urls ;;
  print (Successfully_processed (length (filter success papers))) ;;
  ret {| corpus_papers := papers; corpus_newsletters := newsletters |}.

End ContentFetcher.

(** ** class DigestGenerator *)

(** [str(n)] of a count, as an f-string prints it. *)
Definition str_of_nat (n : nat) : str :=
  lit (DecimalString.NilEmpty.string_of_uint (Nat.to_uint n)).

(** A block of the model's answer: its [type] and, for a block of type
    [text], its [text]. *)
Record Block := { block_type : str; block_text : str }.

(** The arguments of [client.messages.create]. *)
Record Request := {
  request_model : str;
  request_max_tokens : Z;
  request_thinking : str * Z;      (* ["type"], ["budget_tokens"] *)
  request_messages : list (str * str)   (* ["role"], ["content"] *)
}.

Definition AnthropicClient := Request -> result (list Block).

(** Lines 255-257, with [i] the number of the first newsletter of the list. *)
Fixpoint newsletter_parts (i : nat) (newsletters : list Newsletter) : list str :=
  match newsletters with
  | [] => []
  | newsletter :: rest =>
      ([LF] ++ lit "--- Newsletter " ++ str_of_nat i ++ lit ": "
            ++ subject newsletter ++ lit " ---" ++ [LF])
      :: slice_to 10000 (body newsletter)
      :: newsletter_parts (S i) rest
  end.

(** Lines 263-268: what one paper adds to [content_parts]. *)
Definition paper_part (i : nat) (paper : RetrievalOutcome) : list str :=
  if success paper then
    [ [LF] ++ lit "--- Paper " ++ str_of_nat i ++ lit ": " ++ url paper
           ++ lit " ---" ++ [LF];
      lit "Type: " ++ type paper ++ [LF];
      slice_to 30000 (content paper) ]
  else
    [ [LF] ++ lit "--- Paper " ++ str_of_nat i ++ lit ": " ++ url paper
           ++ lit " (failed to fetch) ---" ++ [LF] ].

Fixpoint paper_parts (i : nat) (papers : list RetrievalOutcome) : list str :=
  match papers with
  | [] => []
  | paper :: rest => paper_part i paper ++ paper_parts (S i) rest
  end.

(** Lines 250-268 *)
Definition content_parts (papers : list RetrievalOutcome)
    (newsletters : list Newsletter) : list str :=
  (match newsletters with
   | [] => []
   | _ :: _ => (lit "=== EMAIL NEWSLETTERS ===" ++ [LF]) :: newsletter_parts 1 newsletters
   end)
  ++ (match papers with
      | [] => []
      | _ :: _ =>
          ([LF; LF] ++ lit "=== PAPERS FROM SLACK ===" ++ [LF]) :: paper_parts 1 papers
      end).

Definition full_content (papers : list RetrievalOutcome)
    (newsletters : list Newsletter) : str :=
  join [LF] (content_parts papers newsletters).

(** The text of the prompt before and after the content, line by line. *)
Definition prompt_head : str :=
  join [LF]
    [ lit "You are analyzing this week's AI safety content from newsletters and research papers. Your task is to create a COMPACT weekly digest that:";
      [];
      lit "1. Removes all redundancy (many sources cover the same topics/papers)";
      lit "2. Extracts the most important insights, findings, and developments";
      lit "3. Highlights key data, results, or plots mentioned";
      lit "4. Organizes information by theme/topic rather than by source";
      lit "5. Keeps the summary concise but comprehensive";
      [];
      lit "Focus on:";
      lit "- Novel research findings in AI safety/alignment";
      lit "- Important policy or governance developments";
      lit "- Technical breakthroughs or concerning capabilities";
      lit "- Key empirical results and data";
      lit "- Significant debates or discussions in the field";
      [];
      lit "Format the output with clear sections and bullet points for scannability.";
      [];
      lit "Here is this week's content:";
      [];
      [] ].

Definition prompt_tail : str :=
  [LF; LF] ++ lit "Generate the compact weekly digest now:".

Definition build_prompt (papers : list RetrievalOutcome)
    (newsletters : list Newsletter) : str :=
  prompt_head ++ full_content papers newsletters ++ prompt_tail.

Definition digest_request (prompt : str) : Request := {|
  request_model := lit "claude-sonnet-4-20250514";
  request_max_tokens := 16000;
  request_thinking := (lit "enabled", 10000%Z);
  request_messages := [(lit "user", prompt)]
|}.

(** Lines 313-316: the text of the blocks of type [text], in order. *)
Fixpoint text_blocks (blocks : list Block) (digest_text : str) : str :=
  match blocks with
  | [] => digest_text
  | block :: rest =>
      if str_eq_dec (block_type block) (lit "text")
      then text_blocks rest (digest_text ++ block_text block)
      else text_blocks rest digest_text
  end.

(** ** Delivery: the state of steps 5 and 6 *)

(** A message as [send_digest] builds it: the headers and the parts of a
    [multipart/alternative], each with its subtype. *)
Record Email := {
  email_subject : str;
  email_from : option str;
  email_to : option str;
  email_parts : list (str * str)
}.

(** The mail server: what each step of the session raises, if it does. *)
Record SmtpServer := {
  smtp_connect : str -> Z -> option Exn;      (* [smtplib.SMTP(host, port)] *)
  smtp_starttls : option Exn;
  smtp_login : option str -> option str -> option Exn;
  smtp_send_message : Email -> option Exn;
  (* the [QUIT] sent on leaving the [with] block: an answer other than 221
     raises; a server that has gone away does not *)
  smtp_quit : option Exn
}.

(** [EmailSender] after [__init__]. *)
Record EmailSender := {
  smtp_server : str;
  smtp_port : Z;
  sender_email : option str;
  sender_password : option str;
  recipient_email : option str
}.

(** What steps 5 and 6 get from outside the program. *)
Record Outside := {
  anthropic_client : AnthropicClient;
  encode_text : str -> result bytes;    (* the encoding of a file opened with ['w'] *)
  smtp : SmtpServer;
  environ : str -> option str;          (* [os.environ.get] *)
  py_int : str -> result Z;             (* [int(s)] *)
  today : str                           (* [datetime.now().strftime('%Y-%m-%d')] *)
}.

(** A line printed in steps 5 and 6. *)
Inductive Notice :=
| Generating_digest
| Sending_content_to_Claude
| Digest_saved
| Sending_digest_via_email
| Digest_sent_successfully (recipient : option str)
| Error_sending_email (e : Exn)
| Completed_successfully
| Finished_at (t : Z).

(** The state of the whole run: the state of the collection, the lines of
    steps 5 and 6, and the messages the mail server has accepted. *)
Record Station := {
  world : World;
  notices : list Notice;
  outbox : list Email
}.

Definition D (A : Type) : Type := Station -> result A * Station.

Definition dret {A} (a : A) : D A := fun st => (Ok a, st).

Definition dbind {A B} (c : D A) (k : A -> D B) : D B :=
  fun st =>
    match c st with
    | (Ok a, st') => k a st'
    | (Raise e, st') => (Raise e, st')
    end.

Definition draise {A} (e : Exn) : D A := fun st => (Raise e, st).

Definition dcall {A} (r : result A) : D A := fun st => (r, st).

(** A step that returns nothing and raises [e] if the library says so. *)
Definition dstep (r : option Exn) : D unit :=
  match r with
  | Some e => draise e
  | None => dret tt
  end.

Definition dtry {A} (body : D A) (handler : Exn -> D A) : D A :=
  fun st =>
    match body st with
    | (Ok a, st') => (Ok a, st')
    | (Raise e, st') => handler e st'
    end.

(** Code of the collection, run on the [world] of the station. *)
Definition in_world {A} (c : M A) : D A :=
  fun st =>
    match c (world st) with
    | (r, w') => (r, {| world := w'; notices := notices st; outbox := outbox st |})
    end.

Definition note (n : Notice) : D unit :=
  fun st =>
    (Ok tt, {| world := world st; notices := notices st ++ [n]; outbox := outbox st |}).

(** [with smtplib.SMTP(...) as server: body], once the connection is made:
    whether the body returns or raises, the block is left through [QUIT];
    if that raises, its exception is the one that leaves the block. *)
Definition with_session {A} (quit : option Exn) (body : D A) : D A :=
  fun st =>
    match body st with
    | (r, st') =>
        match quit with
        | Some e => (Raise e, st')
        | None => (r, st')
        end
    end.

(** The server accepts the message. *)
Definition deliver (msg : Email) : D unit :=
  fun st =>
    (Ok tt, {| world := world st; notices := notices st; outbox := outbox st ++ [msg] |}).

Declare Scope run_scope.
Delimit Scope run_scope with run.
Notation "x <- c ;; k" := (dbind c (fun x => k))
  (at level 61, c at next level, right associativity) : run_scope.
Notation "c ;; k" := (dbind c (fun _ => k))
  (at level 61, right associativity) : run_scope.

Section Delivery.

Variable out : Outside.

Local Open Scope run_scope.

(** *** DigestGenerator.generate_digest *)
Definition generate_digest (papers : list RetrievalOutcome)
    (newsletters : list Newsletter) : D str :=
  let prompt := build_prompt papers newsletters in
  note Sending_content_to_Claude ;;
  message <- dcall (anthropic_client out (digest_request prompt)) ;;
  dret (text_blocks message []).

(** *** EmailSender.__init__ *)
Definition environ_get (key default : str) : str :=
  match environ out key with Some v => v | None => default end.

Definition EmailSender_init : result EmailSender :=
  match py_int out (environ_get (lit "SMTP_PORT") (lit "587")) with
  | Raise e => Raise e
  | Ok port =>
      Ok {| smtp_server := environ_get (lit "SMTP_SERVER") (lit "smtp.gmail.com");
            smtp_port := port;
            sender_email := environ out (lit "SENDER_EMAIL");
            sender_password := environ out (lit "SENDER_PASSWORD");
            recipient_email := environ out (lit "RECIPIENT_EMAIL") |}
  end.

(** *** EmailSender.send_digest *)

Definition DQ : ascii := ascii_of_N 34.

(** Line 345 *)
Definition html_content (digest_content : str) : str :=
  replace [LF] (lit "<br>") digest_content.

Definition html_page (digest_content : str) : str :=
  lit "<html><body><pre style=" ++ [DQ] ++ lit "font-family: sans-serif;" ++ [DQ]
    ++ lit ">" ++ html_content digest_content ++ lit "</pre></body></html>".

(** Lines 335-347 *)
Definition digest_email (sender : EmailSender) (digest_content : str) : Email := {|
  email_subject := lit "AI Safety Weekly Digest - " ++ today out;
  email_from := sender_email sender;
  email_to := recipient_email sender;
  email_parts := [(lit "plain", digest_content); (lit "html", html_page digest_content)]
|}.

Definition send_digest (sender : EmailSender) (digest_content : str) : D unit :=
  let msg := digest_email sender digest_content in
  dtry
    (dstep (smtp_connect (smtp out) (smtp_server sender) (smtp_port sender)) ;;
     with_session (smtp_quit (smtp out))
       (dstep (smtp_starttls (smtp out)) ;;
        dstep (smtp_login (smtp out) (sender_email sender) (sender_password sender)) ;;
        dstep (smtp_send_message (smtp out) msg) ;;
        deliver msg) ;;
     note (Digest_sent_successfully (recipient_email sender)))
    (fun e =>
       note (Error_sending_email e) ;;
       draise e).

(** *** main, steps 5 and 6 *)

Definition digest_path : str := lit "/tmp/digest.txt".

(** [with open(path, 'w') as f: f.write(text)]: the file is created, or
    emptied, when it is opened. *)
Definition write_text (path text : str) : M unit :=
  bind (write_file path [])
    (fun _ => bind (call (encode_text out text))
    (fun data => write_file path data)).

Definition main_from_step_5 (env : Env) (corpus : Corpus) : D unit :=
  note Generating_digest ;;
  digest <- generate_digest (corpus_papers corpus) (corpus_newsletters corpus) ;;
  in_world (write_text digest_path digest) ;;
  note Digest_saved ;;
  note Sending_digest_via_email ;;
  sender <- dcall EmailSender_init ;;
  send_digest sender digest ;;
  note Completed_successfully ;;
  note (Finished_at (now env)).

(** The whole of [main]: the configuration is read from the environment,
    steps 1 to 4 run on the [world], steps 5 and 6 follow. *)
Definition main_all (env : Env) (client : WebClient) (gmail : option GmailService)
    (date_filter : str) : D unit :=
  let slack_channel := environ_get (lit "SLACK_CHANNEL_NAME") (lit "papers-running-list") in
  let gmail_label := environ_get (lit "GMAIL_LABEL") (lit "AI-Safety-Newsletters") in
  days_back <- dcall (py_int out (environ_get (lit "DAYS_BACK") (lit "7"))) ;;
  corpus <- in_world (main env client gmail slack_channel gmail_label date_filter days_back) ;;
  main_from_step_5 env corpus.

End Delivery.


(** ** Notions the properties are stated with *)

(** The history of a channel from [oldest] on, all pages: after a page that
    says [has_more], the next one is asked for with its [next_cursor].
    [fuel] bounds the number of pages read. *)
Fixpoint history_all (fuel : nat) (client : WebClient) (channel : str) (oldest : Z)
    (cursor : option str) : result (list Message) :=
  match fuel with
  | O => Ok []
  | S fuel' =>
      match conversations_history client channel oldest cursor with
      | Raise e => Raise e
      | Ok page =>
          if has_more page then
            match history_all fuel' client channel oldest (Some (next_cursor page)) with
            | Ok rest => Ok (messages page ++ rest)
            | Raise e => Raise e
            end
          else Ok (messages page)
      end
  end.

(** The place of the first occurrence of [u] in [l] ([length l] if none). *)
Fixpoint first_index (u : str) (l : list str) : nat :=
  match l with
  | [] => 0
  | v :: l' => if str_eq_dec u v then 0 else S (first_index u l')
  end.

(** The number of different values in [l]. *)
Definition distinct_count (l : list str) : nat := length (nodup str_eq_dec l).

(** A text with no whitespace at either end, as [strip] leaves it. *)
Definition stripped (s : str) : Prop := strip s = s.

Definition no_leading_space (s : str) : Prop := lstrip s = s.

Definition empty_world : World := {| fs := fun _ => None; stdout := [] |}.

(** The cap on the content of an outcome, by its kind. *)
Definition content_cap (o : RetrievalOutcome) : Z :=
  if str_eq_dec (type o) (lit "pdf") then PDF_CAP else WEB_CAP.

(** A failed outcome, as both [except] branches build it. *)
Definition failed (o : RetrievalOutcome) (e : Exn) : Prop :=
  success o = false /\ content o = [] /\ error o = Some (exn_str e).

(** A successful outcome of the given kind, within the given cap. *)
Definition succeeded (o : RetrievalOutcome) (cap : Z) : Prop :=
  success o = true /\ error o = None /\ (Z.of_nat (length (content o)) <= cap)%Z.

(** The line [l] reports the exception [e]. *)
Definition error_reported (e : Exn) (l : Line) : Prop :=
  match l with
  | Error_downloading_PDF _ e' | Error_fetching_webpage _ e' => e' = e
  | _ => False
  end.

(** The outcome is of one of the two kinds and is either a success within
    the cap of its kind or a failure. *)
Definition well_formed (o : RetrievalOutcome) : Prop :=
  (type o = lit "pdf" \/ type o = lit "webpage")
  /\ (succeeded o (content_cap o) \/ exists e, failed o e).

(** What a run returned, if it returned. *)
Definition returned {A} (r : result A * World) : option A :=
  match r with
  | (Ok a, _) => Some a
  | (Raise _, _) => None
  end.

(** The outcome of resolving [u] on its own, from a clean state. *)
Definition resolve (env : Env) (u : str) : option RetrievalOutcome :=
  returned (download_paper_content env u empty_world).

(** A text without line boundaries. *)
Definition no_breaks (s : str) : Prop := Forall (fun c => is_linebreak c = false) s.

(** A chunk as [_fetch_webpage] joins them: not empty, stripped, on one
    line. *)
Definition good_chunk (c : str) : Prop := c <> [] /\ stripped c /\ no_breaks c.

(** Lines none of which is blank or begins with whitespace, and none of
    which, the last one apart, ends with whitespace. *)
Definition clean_but_last (lines : list str) : Prop :=
  Forall (fun l => l <> [] /\ no_leading_space l) lines
  /\ Forall stripped (removelast lines).

(** The data of a part that is plain text or HTML and has data. *)
Definition text_data (part : Part) : option str :=
  if str_eq_dec (mimeType part) text_plain then
    match body_data part with Some ((_ :: _) as data) => Some data | _ => None end
  else if str_eq_dec (mimeType part) text_html then
    match body_data part with Some ((_ :: _) as data) => Some data | _ => None end
  else None.


(** The text of the pages of a PDF, one after the other; a page without
    text gives nothing. *)
Definition page_texts (pages : list Page) : str :=
  concat (map (fun page => match extract_text page with
                           | Ok (Some s) => s
                           | _ => []
                           end) pages).

(** The newsletter made of the message [msg_id]. *)
Definition newsletter_of (env : Env) (service : GmailService) (msg_id : str)
    (n : Newsletter) : Prop :=
  newsletter_id n = msg_id
  /\ exists payload,
      messages_get service msg_id = Ok payload
      /\ subject n = find_subject (headers payload)
      /\ _get_email_body env payload = Ok (body n).

(** The message [msg_id] can be fetched and its body extracted. *)
Definition readable (env : Env) (service : GmailService) (msg_id : str) : Prop :=
  exists payload text,
    messages_get service msg_id = Ok payload
    /\ _get_email_body env payload = Ok text.


(** No two spaces side by side. *)
Definition is_sp (c : ascii) : bool := if ascii_dec SP c then true else false.

(** The text begins with a space. *)
Definition hd_sp (s : str) : bool :=
  match s with c :: _ => is_sp c | [] => false end.

Fixpoint spaced_apart (s : str) : bool :=
  match s with
  | c :: s' =>
      match s' with
      | c' :: _ => negb (is_sp c && is_sp c') && spaced_apart s'
      | [] => true
      end
  | [] => true
  end.


(** Whether a block is of type [text]. *)
Definition is_text (block : Block) : bool :=
  if str_eq_dec (block_type block) (lit "text") then true else false.

(** What [generate_digest] reads of a newsletter and of a paper. *)
Definition same_newsletter_view (n n' : Newsletter) : Prop :=
  subject n = subject n' /\ slice_to 10000 (body n) = slice_to 10000 (body n').

Definition same_paper_view (p p' : RetrievalOutcome) : Prop :=
  url p = url p' /\ success p = success p'
  /\ (success p = true ->
      type p = type p' /\ slice_to 30000 (content p) = slice_to 30000 (content p')).

(** The steps of the mail session all go through. *)
Definition session_ok (out : Outside) (sender : EmailSender) (msg : Email) : Prop :=
  smtp_connect (smtp out) (smtp_server sender) (smtp_port sender) = None
  /\ smtp_starttls (smtp out) = None
  /\ smtp_login (smtp out) (sender_email sender) (sender_password sender) = None
  /\ smtp_send_message (smtp out) msg = None.


(** The page gives its text, or none. *)
Definition page_ok (page : Page) : Prop := exists t, extract_text page = Ok t.

(** The resolution of a reference fails: a step of its fetch raises [e], the
    steps before it having gone through.  For a PDF fetched from [pdf_url]
    the steps are the GET, the check of the status, the opening of the
    document and the reading of each page in turn. *)
Definition pdf_fails (env : Env) (pdf_url : str) (e : Exn) : Prop :=
  requests_get env pdf_url None = Raise e
  \/ exists response,
       requests_get env pdf_url None = Ok response
       /\ (status_error response = Some e
           \/ (status_error response = None
               /\ (pdfplumber_pages env (response_content response) = Raise e
                   \/ exists before page after,
                        pdfplumber_pages env (response_content response)
                        = Ok (before ++ page :: after)
                        /\ Forall page_ok before
                        /\ extract_text page = Raise e))).




(** ** Sample inputs *)

Definition refused : Exn := {| exn_str := lit "Connection refused" |}.


Definition pdf_bytes : bytes := [Byte.x25; Byte.x50; Byte.x44; Byte.x46].



(** A [.pdf] URL that answers with bytes that are no PDF. *)
Definition broken_url : str := lit "https://example.org/paper.pdf".

Definition html_bytes : bytes := [Byte.x3c; Byte.x68; Byte.x74; Byte.x6d; Byte.x6c; Byte.x3e].

Definition broken_env : Env := {|
  requests_get := fun u _ =>
    if str_eq_dec u broken_url
    then Ok {| status_error := None; response_content := html_bytes; response_text := [] |}
    else Raise refused;
  pdfplumber_pages := fun _ =>
    Raise {| exn_str := lit "No /Root object! - Is this really a PDF?" |};
  soup_get_text := fun _ => Raise refused;
  b64decode_utf8 := fun _ => Raise refused;
  now := 1762128000
|}.

(** The abstract page of a repository other than arXiv; only the reference
    as it stands is served. *)
Definition example_repo_url : str := lit "https://example-repo.org/abs/1234.5678".

Definition example_repo_env : Env := {|
  requests_get := fun u _ =>
    if str_eq_dec u example_repo_url
    then Ok {| status_error := None; response_content := [];
               response_text := lit "<p>Abstract</p>" |}
    else Raise refused;
  pdfplumber_pages := fun _ => Raise refused;
  soup_get_text := fun _ => Ok (lit "Abstract");
  b64decode_utf8 := fun _ => Raise refused;
  now := 1762128000
|}.

Definition arxiv_abs_url : str := lit "https://arxiv.org/abs/1234.5678".

(** A page whose visible text is longer than the cap, with a space at the
    place of the cut: 4999 lines of nine letters, 10 characters each with
    the line break, and a last line whose tenth character is a space. *)
Definition long_url : str := lit "https://example.org/long".

Definition nine : str := lit "aaaaaaaaa".

Definition long_text : str :=
  concat (repeat (nine ++ [LF]) 4999) ++ nine ++ lit " bbb".

Definition long_env : Env := {|
  requests_get := fun _ _ =>
    Ok {| status_error := None; response_content := []; response_text := long_text |};
  pdfplumber_pages := fun _ => Raise refused;
  soup_get_text := fun html => Ok html;
  b64decode_utf8 := fun _ => Raise refused;
  now := 1762128000
|}.

(** arXiv serving the PDF of a paper, and nothing else. *)
Definition arxiv_pdf : str := lit "https://arxiv.org/pdf/1234.5678.pdf".

Definition arxiv_env : Env := {|
  requests_get := fun u _ =>
    if str_eq_dec u arxiv_pdf
    then Ok {| status_error := None; response_content := pdf_bytes; response_text := [] |}
    else Raise refused;
  pdfplumber_pages := fun _ =>
    Ok [ {| extract_text := Ok (Some (lit "Page one. ")) |};
         {| extract_text := Ok None |};
         {| extract_text := Ok (Some (lit "Page three.")) |} ];
  soup_get_text := fun _ => Raise refused;
  b64decode_utf8 := fun _ => Raise refused;
  now := 1762128000
|}.

(** What is left of [long_text] after the cut: the last line is the nine
    letters and the space. *)
Definition long_content : str :=
  concat (repeat (nine ++ [LF]) 4999) ++ nine ++ lit " ".

(** A mailbox message with an HTML part before its plain-text part.  The
    decoder is given by its values at the two data strings of the message,
    [aGk=] for [hi] and [PGI-aGk8L2I-] for [<b>hi</b>]. *)
Definition plain_data : str := lit "aGk=".
Definition html_data : str := lit "PGI-aGk8L2I-".

(** A character of the base64 alphabets that [urlsafe_b64decode] reads:
    letters, digits, [+], [/], [-] and [_].  Any other character is
    discarded before decoding. *)
Definition b64_char (c : ascii) : bool :=
  in_range 97 122 c || in_range 65 90 c || in_range 48 57 c
  || N.eqb (code c) 43 || N.eqb (code c) 47 || N.eqb (code c) 45 || N.eqb (code c) 95.

(** The decoder of the samples knows the two texts above; data without a
    character of the alphabet decodes to the empty text; the other data the
    samples use is cut short (its number of characters is no multiple of
    four) and is refused. *)
Definition mail_env : Env := {|
  requests_get := fun _ _ => Raise refused;
  pdfplumber_pages := fun _ => Raise refused;
  soup_get_text := fun _ => Raise refused;
  b64decode_utf8 := fun data =>
    if str_eq_dec data plain_data then Ok (lit "hi")
    else if str_eq_dec data html_data then Ok (lit "<b>hi</b>")
    else if existsb b64_char data then Raise {| exn_str := lit "Incorrect padding" |}
    else Ok [];
  now := 1762128000
|}.

Definition plain_part : Part := {| mimeType := text_plain; body_data := Some plain_data |}.
Definition html_part : Part := {| mimeType := text_html; body_data := Some html_data |}.
Definition empty_plain_part : Part := {| mimeType := text_plain; body_data := Some [] |}.
Definition mixed_part : Part :=
  {| mimeType := lit "multipart/alternative"; body_data := None |}.

Definition multipart (ps : list Part) : Payload :=
  {| headers := []; parts := Some ps; payload_data := None |}.

(** A channel whose history of the week comes in two pages. *)
Definition newer_url : str := lit "https://arxiv.org/abs/2401.00002".
Definition older_url : str := lit "https://arxiv.org/abs/2401.00001".

Definition newer_message : Message :=
  {| message_text := Some (lit "new today: " ++ newer_url) |}.
Definition older_message : Message :=
  {| message_text := Some (lit "from Monday: " ++ older_url ++ lit " (worth a read)") |}.

Definition papers_channel : str := lit "papers-running-list".

Definition paged_client : WebClient := {|
  conversations_list :=
    Ok [ {| channel_name := lit "general"; channel_id := lit "C01" |};
         {| channel_name := papers_channel; channel_id := lit "C02" |} ];
  conversations_history := fun channel _ cursor =>
    if str_eq_dec channel (lit "C02") then
      match cursor with
      | None =>
          Ok {| messages := [newer_message]; has_more := true;
                next_cursor := lit "bmV4dA==" |}
      | Some c =>
          if str_eq_dec c (lit "bmV4dA==")
          then Ok {| messages := [older_message]; has_more := false; next_cursor := [] |}
          else Raise {| exn_str := lit "invalid_cursor" |}
      end
    else Raise {| exn_str := lit "channel_not_found" |}
|}.

(** A channel with one message that lists 120 references, no two the same:
    the [n]-th ends in [n] letters. *)
Definition numbered_url (n : nat) : str :=
  lit "https://example.org/p/" ++ repeat (ascii_of_N 120) n.

Definition many_urls : list str := map numbered_url (seq 1 120).

Definition many_client : WebClient := {|
  conversations_list := Ok [ {| channel_name := papers_channel; channel_id := lit "C02" |} ];
  conversations_history := fun _ _ _ =>
    Ok {| messages := [ {| message_text := Some (join (lit " ") many_urls) |} ];
          has_more := false; next_cursor := [] |}
|}.


(** A mailbox with two readable messages and one whose data cannot be
    decoded: three characters of base64 are no whole number of bytes
    ([Incorrect padding]). *)
Definition weekly_query : str := lit "label:AI-Safety-Newsletters after:2025/10/27".

Definition mail_service (ids : list str) : GmailService := {|
  messages_list := fun q => if str_eq_dec q weekly_query then Ok (Some ids) else Ok None;
  messages_get := fun msg_id =>
    if str_eq_dec msg_id (lit "m1") then
      Ok {| headers := [ {| header_name := lit "From"; header_value := lit "news@example.org" |};
                         {| header_name := lit "Subject"; header_value := lit "Weekly" |} ];
            parts := Some [plain_part; html_part];
            payload_data := None |}
    else if str_eq_dec msg_id (lit "m2") then
      Ok {| headers := []; parts := None; payload_data := Some html_data |}
    else if str_eq_dec msg_id (lit "m3") then
      Ok {| headers := []; parts := None; payload_data := Some (lit "abc") |}
    else Raise {| exn_str := lit "Requested entity was not found." |}
|}.


(** A PDF whose second page cannot be read. *)
Definition torn_url : str := lit "https://example.org/torn.pdf".

Definition torn_page_error : Exn := {| exn_str := lit "list index out of range" |}.

Definition torn_env : Env := {|
  requests_get := fun u _ =>
    if str_eq_dec u torn_url
    then Ok {| status_error := None; response_content := pdf_bytes; response_text := [] |}
    else Raise refused;
  pdfplumber_pages := fun _ =>
    Ok [ {| extract_text := Ok (Some (lit "Page one. ")) |};
         {| extract_text := Raise torn_page_error |};
         {| extract_text := Ok (Some (lit "Page three.")) |} ];
  soup_get_text := fun _ => Raise refused;
  b64decode_utf8 := fun _ => Raise refused;
  now := 1762128000
|}.


(** The world outside for steps 5 and 6: a model that answers with a
    thinking block and two text blocks, files written in Latin-1, and a
    mail server. *)
Definition sample_answer : list Block :=
  [ {| block_type := lit "thinking"; block_text := [] |};
    {| block_type := lit "text"; block_text := lit "Digest: " |};
    {| block_type := lit "text"; block_text := lit "nothing new." |} ].

Definition sample_out (api : AnthropicClient) (server : SmtpServer) : Outside := {|
  anthropic_client := api;
  encode_text := fun s => Ok (map byte_of_ascii s);
  smtp := server;
  environ := fun key =>
    if str_eq_dec key (lit "SENDER_EMAIL") then Some (lit "digest@example.org")
    else if str_eq_dec key (lit "SENDER_PASSWORD") then Some (lit "app-password")
    else if str_eq_dec key (lit "RECIPIENT_EMAIL") then Some (lit "team@example.org")
    else None;
  py_int := fun s =>
    if str_eq_dec s (lit "587") then Ok 587%Z
    else if str_eq_dec s (lit "7") then Ok 7%Z
    else Raise {| exn_str := lit "invalid literal for int() with base 10" |};
  today := lit "2025-11-03"
|}.

Definition answering : AnthropicClient := fun _ => Ok sample_answer.

Definition overloaded : Exn := {| exn_str := lit "Overloaded" |}.

Definition not_answering : AnthropicClient := fun _ => Raise overloaded.

Definition server_up : SmtpServer := {|
  smtp_connect := fun _ _ => None;
  smtp_starttls := None;
  smtp_login := fun _ _ => None;
  smtp_send_message := fun _ => None;
  smtp_quit := None
|}.

Definition bad_credentials : Exn :=
  {| exn_str := lit "(535, b'5.7.8 Username and Password not accepted.')" |}.

Definition server_rejecting : SmtpServer := {|
  smtp_connect := fun _ _ => None;
  smtp_starttls := None;
  smtp_login := fun _ _ => Some bad_credentials;
  smtp_send_message := fun _ => None;
  smtp_quit := None
|}.

(** A server that accepts the message and answers the closing [QUIT] with
    an error. *)
Definition closing_error : Exn :=
  {| exn_str := lit "(421, b'4.7.0 Try again later, closing connection.')" |}.

Definition server_closing_badly : SmtpServer := {|
  smtp_connect := fun _ _ => None;
  smtp_starttls := None;
  smtp_login := fun _ _ => None;
  smtp_send_message := fun _ => None;
  smtp_quit := Some closing_error
|}.

Definition start : Station := {| world := empty_world; notices := []; outbox := [] |}.

Definition failed_paper (u body e : str) : RetrievalOutcome :=
  {| url := u; type := lit "webpage"; content := body; success := false; error := Some e |}.

Definition good_paper (u body : str) : RetrievalOutcome :=
  {| url := u; type := lit "webpage"; content := body; success := true; error := None |}.

Definition small_corpus : Corpus := {|
  corpus_papers := [ failed_paper older_url [] (lit "Connection refused");
                     good_paper newer_url (lit "Abstract") ];
  corpus_newsletters := [ {| subject := lit "Weekly"; body := lit "hi"; newsletter_id := lit "m1" |} ]
|}.


(** * Properties *)

Example strip_ex : strip (lit "  a b   ") = lit "a b".
Proof. reflexivity. Qed.

Example splitlines_ex :
  splitlines (lit "a" ++ [LF; LF] ++ lit "b" ++ [CR; LF] ++ lit "c" ++ [LF])
  = [lit "a"; []; lit "b"; lit "c"].
Proof. reflexivity. Qed.

Example split2_ex : split2 (lit "a  b   c d") = [lit "a"; lit "b"; lit " c d"].
Proof. reflexivity. Qed.

Example replace_ex :
  replace (lit "/abs/") (lit "/pdf/") (lit "https://arxiv.org/abs/1234.5678")
  = lit "https://arxiv.org/pdf/1234.5678".
Proof. reflexivity. Qed.

Example findall_ex :
  findall_url (lit "see <https://arxiv.org/abs/1234.5678> and http://a.b/c{x} http://")
  = [lit "https://arxiv.org/abs/1234.5678>"; lit "http://a.b/c"].
Proof. reflexivity. Qed.

Example unique_ex :
  unique [lit "http://a"; lit "http://b"; lit "http://a"; lit "http://c"; lit "http://b"]
  = [lit "http://a"; lit "http://b"; lit "http://c"].
Proof. reflexivity. Qed.

Example clean_text_ex :
  clean_text (lit "  Title  " ++ [LF; LF] ++ lit "a b    c  " ++ [LF] ++ lit "   ")
  = lit "Title" ++ [LF] ++ lit "a b" ++ [LF] ++ lit "c".
Proof. reflexivity. Qed.

(** ** The resolver's helpers *)

(** One step of a run: the call returned [r] or raised. *)
Ltac step_result c r :=
  destruct c as [r|?e] eqn:?; simpl.

Section Resolver.

Variable env : Env.

Lemma pages_text_world (pages : list Page) (text : str) :
  exists r, forall w, pages_text pages text w = (r, w).
Proof.
  revert text. induction pages as [|page rest IH]; intros text; simpl.
  - eexists; reflexivity.
  - unfold bind, call. destruct (extract_text page) as [t|e].
    + apply IH.
    + eexists; reflexivity.
Qed.

Lemma slice_to_length (n : Z) (s : str) :
  (0 <= n)%Z -> (Z.of_nat (length (slice_to n s)) <= n)%Z.
Proof.
  intros Hn. unfold slice_to. rewrite length_firstn. lia.
Qed.

Lemma _download_pdf_returns (pdf_url original_url : str) (w : World) :
  exists o w',
    _download_pdf env pdf_url original_url w = (Ok o, w')
    /\ url o = original_url /\ type o = lit "pdf"
    /\ (succeeded o PDF_CAP /\ stdout w' = stdout w /\ fs w' pdf_path = None
        \/ exists e, failed o e
                     /\ stdout w' = stdout w ++ [Error_downloading_PDF pdf_url e]).
Proof.
  unfold _download_pdf, try_except, bind, call, raise_for_status.
  step_result (requests_get env pdf_url None) r.
  2:{ do 2 eexists. repeat split; try reflexivity. right. eexists.
      repeat split; reflexivity. }
  destruct (status_error r) as [e|] eqn:Hst; simpl.
  { do 2 eexists. repeat split; try reflexivity. right. exists e.
    repeat split; reflexivity. }
  unfold read_file; simpl.
  destruct (str_eq_dec pdf_path pdf_path) as [_|N]; [|congruence].
  step_result (pdfplumber_pages env (response_content r)) pages.
  2:{ do 2 eexists. repeat split; try reflexivity. right. eexists.
      repeat split; reflexivity. }
  match goal with |- context [pages_text ?ps ?t _] =>
    destruct (pages_text_world ps t) as [rt Hrt]; rewrite Hrt end.
  destruct rt as [text|e]; simpl.
  2:{ do 2 eexists. repeat split; try reflexivity. right. exists e.
      repeat split; reflexivity. }
  unfold os_remove; simpl.
  destruct (str_eq_dec pdf_path pdf_path) as [_|N]; [|congruence]. simpl.
  do 2 eexists. repeat split; try reflexivity. left. repeat split; simpl.
  apply slice_to_length. unfold PDF_CAP. lia.
Qed.

Lemma _fetch_webpage_returns (u : str) (w : World) :
  exists o w',
    _fetch_webpage env u w = (Ok o, w')
    /\ url o = u /\ type o = lit "webpage" /\ fs w' = fs w
    /\ (succeeded o WEB_CAP /\ stdout w' = stdout w
        \/ exists e, failed o e
                     /\ stdout w' = stdout w ++ [Error_fetching_webpage u e]).
Proof.
  unfold _fetch_webpage, try_except, bind, call, raise_for_status.
  step_result (requests_get env u (Some (lit "Mozilla/5.0"))) r.
  2:{ do 2 eexists. repeat split; try reflexivity. right. eexists.
      repeat split; reflexivity. }
  destruct (status_error r) as [e|] eqn:Hst; simpl.
  { do 2 eexists. repeat split; try reflexivity. right. exists e.
    repeat split; reflexivity. }
  step_result (soup_get_text env (response_text r)) text.
  2:{ do 2 eexists. repeat split; try reflexivity. right. eexists.
      repeat split; reflexivity. }
  do 2 eexists. repeat split; try reflexivity. left. repeat split; simpl.
  apply slice_to_length. unfold WEB_CAP. lia.
Qed.

Lemma _download_pdf_any_world (pdf_url original_url : str) (w1 w2 : World) :
  fst (_download_pdf env pdf_url original_url w1)
  = fst (_download_pdf env pdf_url original_url w2).
Proof.
  unfold _download_pdf, try_except, bind, call, raise_for_status.
  step_result (requests_get env pdf_url None) r; [|reflexivity].
  destruct (status_error r) as [e|]; simpl; [reflexivity|].
  unfold read_file; simpl.
  destruct (str_eq_dec pdf_path pdf_path) as [_|N]; [|congruence].
  step_result (pdfplumber_pages env (response_content r)) pages; [|reflexivity].
  destruct (pages_text_world pages []) as [rt Hrt]. rewrite !Hrt.
  destruct rt as [text|e]; simpl; [|reflexivity].
  unfold os_remove; simpl.
  destruct (str_eq_dec pdf_path pdf_path) as [_|N]; [|congruence].
  reflexivity.
Qed.

Lemma _fetch_webpage_any_world (u : str) (w1 w2 : World) :
  fst (_fetch_webpage env u w1) = fst (_fetch_webpage env u w2).
Proof.
  unfold _fetch_webpage, try_except, bind, call, raise_for_status.
  step_result (requests_get env u (Some (lit "Mozilla/5.0"))) r; [|reflexivity].
  destruct (status_error r) as [e|]; simpl; [reflexivity|].
  step_result (soup_get_text env (response_text r)) text; reflexivity.
Qed.

Lemma download_paper_content_any_world (u : str) (w1 w2 : World) :
  fst (download_paper_content env u w1) = fst (download_paper_content env u w2).
Proof.
  unfold download_paper_content, bind, print.
  destruct (contains (lit "arxiv.org") u); [apply _download_pdf_any_world|].
  destruct (endswith (lit ".pdf") u);
    [apply _download_pdf_any_world | apply _fetch_webpage_any_world].
Qed.

Lemma content_cap_pdf (o : RetrievalOutcome) :
  type o = lit "pdf" -> content_cap o = PDF_CAP.
Proof.
  intros H. unfold content_cap. rewrite H.
  destruct (str_eq_dec (lit "pdf") (lit "pdf")); congruence.
Qed.

Lemma content_cap_webpage (o : RetrievalOutcome) :
  type o = lit "webpage" -> content_cap o = WEB_CAP.
Proof.
  intros H. unfold content_cap. rewrite H.
  destruct (str_eq_dec (lit "webpage") (lit "pdf")) as [E|_]; [discriminate E|reflexivity].
Qed.

Lemma download_paper_content_returns (u : str) (w : World) :
  exists o w',
    download_paper_content env u w = (Ok o, w')
    /\ url o = u /\ well_formed o
    /\ (success o = true /\ stdout w' = stdout w ++ [Processing_URL u]
        \/ exists e l, failed o e /\ error_reported e l
                       /\ stdout w' = stdout w ++ [Processing_URL u; l]).
Proof.
  unfold download_paper_content, bind, print.
  set (w0 := {| fs := fs w; stdout := stdout w ++ [Processing_URL u] |}).
  assert (Hpdf : forall p,
    exists o w', _download_pdf env p u w0 = (Ok o, w')
      /\ url o = u /\ well_formed o
      /\ (success o = true /\ stdout w' = stdout w ++ [Processing_URL u]
          \/ exists e l, failed o e /\ error_reported e l
                         /\ stdout w' = stdout w ++ [Processing_URL u; l])).
  { intros p.
    destruct (_download_pdf_returns p u w0) as (o & w' & Hrun & Hu & Ht & Hcase).
    exists o, w'. repeat split; auto.
    - destruct Hcase as [(Hs & _) | (e & Hf & _)].
      + left. rewrite (content_cap_pdf o Ht). exact Hs.
      + right. exists e. exact Hf.
    - destruct Hcase as [(Hs & Hout & _) | (e & Hf & Hout)].
      + left. split; [apply Hs | exact Hout].
      + right. exists e, (Error_downloading_PDF p e).
        repeat split; try apply Hf.
        rewrite Hout. simpl. rewrite <- app_assoc. reflexivity. }
  destruct (contains (lit "arxiv.org") u); [apply Hpdf|].
  destruct (endswith (lit ".pdf") u); [apply Hpdf|].
  destruct (_fetch_webpage_returns u w0) as (o & w' & Hrun & Hu & Ht & _ & Hcase).
  exists o, w'. repeat split; auto.
  - destruct Hcase as [(Hs & _) | (e & Hf & _)].
    + left. rewrite (content_cap_webpage o Ht). exact Hs.
    + right. exists e. exact Hf.
  - destruct Hcase as [(Hs & Hout) | (e & Hf & Hout)].
    + left. split; [apply Hs | exact Hout].
    + right. exists e, (Error_fetching_webpage u e).
      repeat split; try apply Hf.
      rewrite Hout. simpl. rewrite <- app_assoc. reflexivity.
Qed.

Lemma returned_fst {A} (r : result A * World) (a : A) :
  fst r = Ok a -> returned r = Some a.
Proof.
  destruct r as [[a'|e] w]; simpl; intros H; congruence.
Qed.

Lemma resolve_in_any_world (u : str) (w w' : World) (o : RetrievalOutcome) :
  download_paper_content env u w = (Ok o, w') -> resolve env u = Some o.
Proof.
  intros H. unfold resolve. apply returned_fst.
  rewrite (download_paper_content_any_world u empty_world w), H. reflexivity.
Qed.

Lemma papers_loop_returns (urls : list str) :
  forall (papers : list RetrievalOutcome) (w : World),
  exists new w',
    papers_loop env urls papers w = (Ok (papers ++ new), w')
    /\ map url new = urls
    /\ map Some new = map (resolve env) urls
    /\ Forall well_formed new.
Proof.
  induction urls as [|u rest IH]; intros papers w; simpl.
  - exists [], w. rewrite app_nil_r. repeat split; constructor.
  - unfold bind.
    destruct (download_paper_content_returns u w) as (o & w1 & Hrun & Hu & Hwf & _).
    rewrite Hrun.
    destruct (IH (papers ++ [o]) w1) as (new & w' & Hloop & Hurls & Hres & Hall).
    exists (o :: new), w'. rewrite Hloop, <- app_assoc. simpl.
    repeat split.
    + congruence.
    + rewrite (resolve_in_any_world _ _ _ _ Hrun). congruence.
    + constructor; assumption.
Qed.

Lemma resolve_papers_returns (slack_urls : list str) (w : World) :
  exists papers w',
    resolve_papers env slack_urls w = (Ok papers, w')
    /\ map url papers = firstn 50 slack_urls
    /\ map Some papers = map (resolve env) (firstn 50 slack_urls)
    /\ Forall well_formed papers.
Proof.
  unfold resolve_papers.
  change (Z.to_nat MAX_PAPERS) with 50%nat.
  destruct (papers_loop_returns (firstn 50 slack_urls) [] w)
    as (new & w' & Hloop & H).
  exists new, w'. split; [exact Hloop | exact H].
Qed.

End Resolver.

(** ** The Document Resolver *)

(** C5.  Every outcome of the resolver keeps the invariant: a failed outcome
    has empty content; a successful one is a [pdf] outcome of at most 100000
    characters or a [webpage] outcome of at most 50000; the second cap is
    the smaller one. *)
Theorem C5_outcome_invariant (env : Env) (u : str) (w : World) :
  exists o w',
    download_paper_content env u w = (Ok o, w')
    /\ (success o = false -> content o = [])
    /\ (success o = true ->
        (type o = lit "pdf" /\ (Z.of_nat (length (content o)) <= 100000)%Z)
        \/ (type o = lit "webpage" /\ (Z.of_nat (length (content o)) <= 50000)%Z))
    /\ (WEB_CAP < PDF_CAP)%Z.
Proof.
  destruct (download_paper_content_returns env u w)
    as (o & w' & Hrun & _ & (Hkind & Hcase) & _).
  exists o, w'. split; [exact Hrun|]. repeat split.
  - intros Hs. destruct Hcase as [(Hs' & _) | (e & _ & Hc & _)]; congruence.
  - intros Hs. destruct Hcase as [(_ & _ & Hlen) | (e & Hs' & _)]; [|congruence].
    destruct Hkind as [Ht | Ht].
    + left. rewrite (content_cap_pdf o Ht) in Hlen. auto.
    + right. rewrite (content_cap_webpage o Ht) in Hlen. auto.
Qed.

(** C9.  The outcome carries the reference it was asked for: the [url] field
    of what [download_paper_content] returns is its argument, and
    [_download_pdf] puts there the original reference, whatever URL it
    fetches from. *)
Theorem C9_outcome_keeps_reference (env : Env) :
  (forall u w, exists o w',
      download_paper_content env u w = (Ok o, w') /\ url o = u)
  /\ (forall pdf_url original_url w, exists o w',
        _download_pdf env pdf_url original_url w = (Ok o, w')
        /\ url o = original_url).
Proof.
  split.
  - intros u w.
    destruct (download_paper_content_returns env u w) as (o & w' & Hrun & Hu & _).
    exists o, w'. auto.
  - intros p u w.
    destruct (_download_pdf_returns env p u w) as (o & w' & Hrun & Hu & _).
    exists o, w'. auto.
Qed.

Example arxiv_abstract_ex :
  returned (download_paper_content arxiv_env arxiv_abs_url empty_world)
  = Some {| url := arxiv_abs_url; type := lit "pdf";
            content := lit "Page one. Page three."; success := true;
            error := None |}.
Proof. vm_compute. reflexivity. Qed.

(** C8, as stated, fails: the abstract page of another repository is fetched
    as it stands, as a web page. *)
Lemma C8_other_repository_not_rewritten :
  contains (lit "/abs/") example_repo_url = true
  /\ download_paper_content example_repo_env example_repo_url empty_world
     = _fetch_webpage example_repo_env example_repo_url
         {| fs := fs empty_world;
            stdout := stdout empty_world ++ [Processing_URL example_repo_url] |}
  /\ returned (download_paper_content example_repo_env example_repo_url empty_world)
     = Some {| url := example_repo_url; type := lit "webpage";
               content := lit "Abstract"; success := true; error := None |}.
Proof.
  repeat split; vm_compute; reflexivity.
Qed.

(** C4: the code at the failing input.  The bytes are written, the library
    cannot read them as a PDF, and the temporary file is still there, with
    these bytes, when the function returns its failed outcome. *)
Theorem C4_temporary_file_left_behind :
  exists o w',
    download_paper_content broken_env broken_url empty_world = (Ok o, w')
    /\ success o = false
    /\ fs empty_world pdf_path = None
    /\ fs w' pdf_path = Some html_bytes.
Proof.
  do 2 eexists. split; [vm_compute; reflexivity|].
  repeat split.
Qed.

(** ** The Aggregation Pipeline *)



(** ** Whitespace and lines *)

Section Strip.

Lemma dropwhile_idem (p : ascii -> bool) (s : str) :
  dropwhile p (dropwhile p s) = dropwhile p s.
Proof.
  induction s as [|c s IH]; simpl; auto.
  destruct (p c) eqn:E; auto. simpl. rewrite E. reflexivity.
Qed.

Lemma dropwhile_head (p : ascii -> bool) (s : str) (c : ascii) (t : str) :
  dropwhile p s = c :: t -> p c = false.
Proof.
  induction s as [|a s IH]; simpl; [discriminate|].
  destruct (p a) eqn:E; auto. intros H. congruence.
Qed.

Lemma dropwhile_snoc (p : ascii -> bool) (s : str) (c : ascii) :
  p c = false -> dropwhile p (s ++ [c]) = dropwhile p s ++ [c].
Proof.
  intros Hc. induction s as [|a s IH]; simpl.
  - rewrite Hc. reflexivity.
  - destruct (p a); auto.
Qed.

Lemma dropwhile_Forall (p : ascii -> bool) (P : ascii -> Prop) (s : str) :
  Forall P s -> Forall P (dropwhile p s).
Proof.
  induction 1 as [|c s Hc Hs IH]; simpl; auto.
  destruct (p c); auto.
Qed.

Lemma rstrip_cons (c : ascii) (s : str) :
  is_space c = false -> rstrip (c :: s) = c :: rstrip s.
Proof.
  intros Hc. unfold rstrip. simpl.
  rewrite (dropwhile_snoc _ _ _ Hc), rev_app_distr. reflexivity.
Qed.

Lemma rstrip_idem (s : str) : rstrip (rstrip s) = rstrip s.
Proof.
  unfold rstrip. rewrite rev_involutive, dropwhile_idem. reflexivity.
Qed.

Lemma strip_Forall (P : ascii -> Prop) (s : str) :
  Forall P s -> Forall P (strip s).
Proof.
  intros H. unfold strip, rstrip, lstrip.
  apply Forall_rev, dropwhile_Forall, Forall_rev, dropwhile_Forall, H.
Qed.

(** What [strip] returns is empty or begins with a character that is no
    whitespace, and stripping it again changes nothing. *)
Lemma strip_shape (s : str) :
  strip s = []
  \/ exists c t, strip s = c :: t /\ is_space c = false /\ stripped (strip s).
Proof.
  assert (E0 : strip s = rstrip (dropwhile is_space s)) by reflexivity.
  destruct (dropwhile is_space s) as [|c t] eqn:E.
  - left. exact E0.
  - right. pose proof (dropwhile_head _ _ _ _ E) as Hc.
    rewrite (rstrip_cons _ _ Hc) in E0.
    exists c, (rstrip t). repeat split; auto.
    unfold stripped. rewrite E0. unfold strip, lstrip.
    cbn [dropwhile]. rewrite Hc.
    rewrite (rstrip_cons _ _ Hc), rstrip_idem. reflexivity.
Qed.

(** A text whose first and last characters are no whitespace is left as it
    is by [strip]. *)
Lemma strip_fixed (c : ascii) (s : str) :
  is_space c = false -> is_space (last (c :: s) c) = false -> strip (c :: s) = c :: s.
Proof.
  intros Hc Hl. unfold strip, lstrip. cbn [dropwhile]. rewrite Hc.
  unfold rstrip.
  destruct (rev (c :: s)) as [|d r] eqn:E.
  - apply (f_equal (@length _)) in E. rewrite length_rev in E. discriminate.
  - assert (Hd : d = last (c :: s) c).
    { rewrite <- (rev_involutive (c :: s)), E. cbn [rev].
      rewrite last_last. reflexivity. }
    cbn [dropwhile]. rewrite Hd, Hl, <- Hd, <- E, rev_involutive. reflexivity.
Qed.

Lemma lstrip_fixed (c : ascii) (s : str) :
  is_space c = false -> no_leading_space (c :: s).
Proof.
  intros Hc. unfold no_leading_space, lstrip. cbn [dropwhile]. rewrite Hc. reflexivity.
Qed.

End Strip.

Section Lines.

Lemma Forall_firstn' {A} (P : A -> Prop) (n : nat) (l : list A) :
  Forall P l -> Forall P (firstn n l).
Proof.
  intros H. revert n. induction H as [|a l Ha Hl IH]; intros [|n]; simpl;
    constructor; auto.
Qed.

Lemma splitlines_from_no_breaks (n : nat) :
  forall (s cur : str), (length s <= n)%nat -> no_breaks cur ->
  Forall no_breaks (splitlines_from cur s).
Proof.
  induction n as [|n IH]; intros s cur Hlen Hcur.
  - destruct s; [|simpl in Hlen; lia]. simpl.
    destruct cur; constructor; auto. apply Forall_rev. exact Hcur.
  - destruct s as [|c s]; simpl.
    + destruct cur; constructor; auto. apply Forall_rev. exact Hcur.
    + simpl in Hlen. destruct (is_linebreak c) eqn:Ec.
      * constructor; [apply Forall_rev; exact Hcur|].
        destruct (ascii_dec c CR); [|apply IH; [lia|constructor]].
        destruct s as [|c' s']; [apply IH; [lia|constructor]|].
        destruct (ascii_dec c' LF); apply IH; simpl in *; try lia; constructor.
      * apply IH; [lia|]. constructor; assumption.
Qed.

Lemma splitlines_no_breaks (s : str) : Forall no_breaks (splitlines s).
Proof.
  apply (splitlines_from_no_breaks (length s)); [lia|constructor].
Qed.

Lemma split2_from_Forall (P : ascii -> Prop) (n : nat) :
  forall (s cur : str), (length s <= n)%nat -> Forall P cur -> Forall P s ->
  Forall (Forall P) (split2_from cur s).
Proof.
  induction n as [|n IH]; intros s cur Hlen Hcur Hs.
  - destruct s; [|simpl in Hlen; lia]. simpl.
    constructor; auto. apply Forall_rev. exact Hcur.
  - destruct s as [|c s]; simpl.
    + constructor; auto. apply Forall_rev. exact Hcur.
    + simpl in Hlen. inversion Hs as [|? ? Hc Hs']; subst.
      destruct (ascii_dec c SP).
      * destruct s as [|c' s']; [apply IH; [lia| |]; auto|].
        inversion Hs' as [|? ? Hc' Hs'']; subst.
        destruct (ascii_dec c' SP).
        -- constructor; [apply Forall_rev; exact Hcur|].
           apply IH; simpl in *; try lia; auto.
        -- apply IH; simpl in *; try lia; auto.
      * apply IH; [lia| |]; auto.
Qed.

Lemma split2_Forall (P : ascii -> Prop) (s : str) :
  Forall P s -> Forall (Forall P) (split2 s).
Proof.
  intros H. apply (split2_from_Forall P (length s)); auto.
Qed.

(** A text on one line is its own only line, unless it is empty. *)
Lemma splitlines_from_one_line (p : str) :
  forall cur, no_breaks p ->
  splitlines_from cur p
  = match rev cur ++ p with [] => [] | _ :: _ => [rev cur ++ p] end.
Proof.
  induction p as [|a p IH]; intros cur Hp; simpl.
  - rewrite app_nil_r. destruct cur as [|c cur]; [reflexivity|].
    destruct (rev (c :: cur)) eqn:E; [|reflexivity].
    apply (f_equal (@length _)) in E. rewrite length_rev in E. discriminate.
  - inversion Hp as [|? ? Ha Hp']; subst. rewrite Ha.
    rewrite (IH (a :: cur) Hp'). simpl. rewrite <- app_assoc. reflexivity.
Qed.

(** A line, then LF: the line is split off. *)
Lemma splitlines_from_line (c : str) (rest : str) :
  forall cur, no_breaks c ->
  splitlines_from cur (c ++ LF :: rest) = (rev cur ++ c) :: splitlines_from [] rest.
Proof.
  induction c as [|a c IH]; intros cur Hc.
  - rewrite app_nil_r. reflexivity.
  - inversion Hc as [|? ? Ha Hc']; subst. cbn [app splitlines_from]. rewrite Ha.
    rewrite (IH (a :: cur) Hc'). simpl. rewrite <- app_assoc. reflexivity.
Qed.

Lemma good_chunk_head (c : str) :
  good_chunk c -> exists h t, c = h :: t /\ is_space h = false.
Proof.
  intros (Hne & Hs & _). unfold stripped in Hs.
  destruct (strip_shape c) as [E | (h & t & E & Hh & _)].
  - congruence.
  - exists h, t. split; congruence.
Qed.

Lemma good_chunk_line (c : str) :
  good_chunk c -> c <> [] /\ no_leading_space c.
Proof.
  intros Hc. destruct (good_chunk_head c Hc) as (h & t & -> & Hh).
  split; [discriminate | apply lstrip_fixed; exact Hh].
Qed.

(** The lines of the beginning of one chunk. *)
Lemma lines_of_prefix (c : str) (n : nat) :
  good_chunk c -> clean_but_last (splitlines (firstn n c)).
Proof.
  intros Hc. destruct (good_chunk_head c Hc) as (h & t & -> & Hh).
  destruct Hc as (_ & _ & Hnb).
  unfold splitlines. rewrite splitlines_from_one_line
    by (apply Forall_firstn'; exact Hnb).
  destruct n as [|n]; simpl.
  - split; constructor.
  - split; [|constructor].
    constructor; [|constructor]. split; [discriminate|].
    apply lstrip_fixed. exact Hh.
Qed.

Lemma clean_but_last_cons (c : str) (lines : list str) :
  good_chunk c -> clean_but_last lines -> clean_but_last (c :: lines).
Proof.
  intros Hc (Hall & Hinit). split.
  - constructor; [apply good_chunk_line; exact Hc | exact Hall].
  - destruct lines as [|l lines]; [constructor|].
    change (removelast (c :: l :: lines)) with (c :: removelast (l :: lines)).
    constructor; [apply Hc | exact Hinit].
Qed.

(** The lines of the beginning of the joined chunks. *)
Lemma lines_of_truncated_join (cs : list str) :
  Forall good_chunk cs ->
  forall n, clean_but_last (splitlines (firstn n (join [LF] cs))).
Proof.
  induction 1 as [|c cs Hc Hcs IH]; intros n.
  - rewrite firstn_nil. split; constructor.
  - destruct cs as [|c2 r].
    + apply lines_of_prefix. exact Hc.
    + change (join [LF] (c :: c2 :: r)) with (c ++ LF :: join [LF] (c2 :: r)).
      rewrite firstn_app.
      destruct (Nat.le_gt_cases n (length c)) as [Hle | Hgt].
      * replace (n - length c)%nat with 0%nat by lia.
        rewrite firstn_O, app_nil_r. apply lines_of_prefix. exact Hc.
      * rewrite firstn_all2 by lia.
        destruct (n - length c)%nat as [|m] eqn:Em; [lia|].
        rewrite firstn_cons. unfold splitlines.
        rewrite splitlines_from_line by apply Hc.
        apply clean_but_last_cons; [exact Hc | apply IH].
Qed.

(** The lines of the joined chunks are the chunks. *)
Lemma splitlines_join (cs : list str) :
  Forall good_chunk cs -> splitlines (join [LF] cs) = cs.
Proof.
  induction 1 as [|c cs Hc Hcs IH]; [reflexivity|].
  destruct cs as [|c2 r].
  - simpl. unfold splitlines. rewrite splitlines_from_one_line by apply Hc.
    simpl. destruct c; [destruct Hc as (Hne & _); congruence | reflexivity].
  - change (join [LF] (c :: c2 :: r)) with (c ++ LF :: join [LF] (c2 :: r)).
    unfold splitlines. rewrite splitlines_from_line by apply Hc.
    simpl. f_equal. exact IH.
Qed.

(** The chunks [_fetch_webpage] joins are good ones. *)
Lemma clean_chunks_good (text : str) : Forall good_chunk (clean_chunks text).
Proof.
  apply Forall_forall. intros x Hx. unfold clean_chunks in Hx.
  apply filter_In in Hx. destruct Hx as (Hin & Hne).
  apply in_flat_map in Hin. destruct Hin as (line & Hline & Hin).
  apply in_map_iff in Hin. destruct Hin as (piece & <- & Hpiece).
  apply in_map_iff in Hline. destruct Hline as (l0 & <- & Hl0).
  assert (Hnb : no_breaks piece).
  { pose proof (splitlines_no_breaks text) as H0.
    rewrite Forall_forall in H0. specialize (H0 _ Hl0).
    pose proof (split2_Forall _ _ (strip_Forall _ _ H0)) as H1.
    rewrite Forall_forall in H1. apply H1. exact Hpiece. }
  destruct (strip_shape piece) as [E | (h & t & E & Hh & Hs)].
  - rewrite E in Hne. discriminate.
  - repeat split.
    + rewrite E. discriminate.
    + exact Hs.
    + apply strip_Forall. exact Hnb.
Qed.

End Lines.

(** ** Web documents: the lines of the content *)

Lemma str_eqb_false (a b : str) : str_eqb a b = false -> a <> b.
Proof.
  unfold str_eqb. destruct (str_eq_dec a b); [discriminate | auto].
Qed.

Lemma str_eqb_true (a b : str) : str_eqb a b = true -> a = b.
Proof.
  unfold str_eqb. destruct (str_eq_dec a b); [auto | discriminate].
Qed.

Lemma list_str_eqb_true (a b : list str) :
  (if list_eq_dec str_eq_dec a b then true else false) = true -> a = b.
Proof.
  destruct (list_eq_dec str_eq_dec a b); [auto | discriminate].
Qed.

Lemma ascii_eqb_true (a b : ascii) : Ascii.eqb a b = true -> a = b.
Proof.
  apply Ascii.eqb_eq.
Qed.

Lemma firstn_short {A} (n : nat) (l : list A) :
  (length (firstn n l) < n)%nat -> firstn n l = l.
Proof.
  rewrite length_firstn. intros H. apply firstn_all2. lia.
Qed.

Lemma _fetch_webpage_content (env : Env) (u : str) (w : World) :
  exists o w',
    _fetch_webpage env u w = (Ok o, w')
    /\ (success o = true ->
        exists text, content o = slice_to WEB_CAP (clean_text text)).
Proof.
  unfold _fetch_webpage, try_except, bind, call, raise_for_status.
  step_result (requests_get env u (Some (lit "Mozilla/5.0"))) r.
  2:{ do 2 eexists. split; [reflexivity|]. simpl. discriminate. }
  destruct (status_error r) as [e|]; simpl.
  { do 2 eexists. split; [reflexivity|]. simpl. discriminate. }
  step_result (soup_get_text env (response_text r)) text.
  2:{ do 2 eexists. split; [reflexivity|]. simpl. discriminate. }
  do 2 eexists. split; [reflexivity|]. simpl. intros _. exists text. reflexivity.
Qed.

(** C10 (as the code has it).  The content of a successful web-document
    outcome is the joined chunks, cut at the cap; in it no line is blank and no line begins with whitespace; no line
    but the last ends with whitespace; and when the content is shorter than
    the cap of 50000 characters, so that nothing was cut, the last line does
    not either. *)
Theorem C10_web_content_lines (env : Env) (u : str) (w : World) :
  exists o w',
    _fetch_webpage env u w = (Ok o, w')
    /\ (success o = true ->
        (exists text, content o = slice_to WEB_CAP (clean_text text))
        /\ Forall (fun line => line <> [] /\ no_leading_space line)
               (splitlines (content o))
        /\ Forall stripped (removelast (splitlines (content o)))
        /\ ((Z.of_nat (length (content o)) < WEB_CAP)%Z ->
            Forall stripped (splitlines (content o)))).
Proof.
  destruct (_fetch_webpage_content env u w) as (o & w' & Hrun & Hc).
  exists o, w'. split; [exact Hrun|]. intros Hs.
  destruct (Hc Hs) as (text & ->).
  split; [exists text; reflexivity|]. unfold slice_to, clean_text.
  pose proof (clean_chunks_good text) as Hgood.
  destruct (lines_of_truncated_join _ Hgood (Z.to_nat WEB_CAP)) as (Hall & Hinit).
  repeat split; auto.
  intros Hlen. rewrite firstn_short by lia.
  rewrite (splitlines_join _ Hgood).
  eapply Forall_impl; [|exact Hgood]. intros c Hgc. apply Hgc.
Qed.

(** C10, as stated, fails: when the cut at 50000 characters falls after a
    space inside a line, the last line of the content ends with that
    space. *)
Lemma C10_cut_line_ends_with_space :
  returned (_fetch_webpage long_env long_url empty_world)
  = Some {| url := long_url; type := lit "webpage"; content := long_content;
            success := true; error := None |}
  /\ last (splitlines long_content) [] = nine ++ lit " "
  /\ strip (nine ++ lit " ") <> nine ++ lit " ".
Proof.
  assert (Hcut : slice_to WEB_CAP (clean_text long_text) = long_content).
  { apply str_eqb_true. vm_compute. reflexivity. }
  split; [|split].
  - unfold _fetch_webpage, try_except, bind, call, raise_for_status, long_env,
      returned, ret.
    cbn [requests_get soup_get_text status_error response_text].
    rewrite Hcut. reflexivity.
  - apply str_eqb_true. vm_compute. reflexivity.
  - apply str_eqb_false. vm_compute. reflexivity.
Qed.

(** ** The Reference Collector: extracted URLs and duplicates *)

Section Unique.

Lemma url_char_not_space (c : ascii) : url_char c = true -> is_space c = false.
Proof.
  destruct c as [[] [] [] [] [] [] [] []]; vm_compute; congruence.
Qed.

Lemma takewhile_Forall (p : ascii -> bool) (s : str) :
  Forall (fun c => p c = true) (takewhile p s).
Proof.
  induction s as [|c s IH]; simpl; [constructor|].
  destruct (p c) eqn:E; constructor; assumption.
Qed.

Lemma last_app_cons {A} (l : list A) (c : A) (b : list A) (d : A) :
  last (l ++ c :: b) d = last (c :: b) d.
Proof.
  induction l as [|a l IH]; [reflexivity|].
  simpl app. rewrite <- IH. simpl. destruct (l ++ c :: b) eqn:E; [|reflexivity].
  destruct l; discriminate.
Qed.

Lemma last_Forall {A} (P : A -> Prop) (l : list A) (c d : A) :
  Forall P (c :: l) -> P (last (c :: l) d).
Proof.
  revert c. induction l as [|a l IH]; intros c H; inversion H; subst; simpl; auto.
  apply IH. assumption.
Qed.

Lemma match_url_stripped (s u : str) : match_url s = Some u -> stripped u.
Proof.
  unfold match_url.
  assert (Hs : forall scheme rest, match_scheme s = Some (scheme, rest) ->
               exists h tl, scheme = h :: tl /\ is_space h = false).
  { unfold match_scheme. intros scheme rest.
    destruct (startswith (lit "https://") s).
    - intros [= <- _]. do 2 eexists. split; reflexivity.
    - destruct (startswith (lit "http://") s); [|discriminate].
      intros [= <- _]. do 2 eexists. split; reflexivity. }
  destruct (match_scheme s) as [[scheme rest]|]; [|discriminate].
  destruct (Hs scheme rest eq_refl) as (h & tl & -> & Hh).
  pose proof (takewhile_Forall url_char rest) as Hbody.
  destruct (takewhile url_char rest) as [|c b]; [discriminate|].
  intros [= <-]. unfold stripped.
  change ((h :: tl) ++ c :: b) with (h :: tl ++ c :: b).
  apply strip_fixed; [exact Hh|].
  change (h :: tl ++ c :: b) with ((h :: tl) ++ c :: b).
  rewrite last_app_cons. apply url_char_not_space.
  apply (last_Forall (fun c => url_char c = true)). exact Hbody.
Qed.

Lemma findall_from_stripped (s : str) :
  forall skip, Forall stripped (findall_from skip s).
Proof.
  induction s as [|c s IH]; intros skip; simpl; [constructor|].
  destruct skip; [|apply IH].
  destruct (match_url (c :: s)) as [m|] eqn:E; [|apply IH].
  constructor; [|apply IH]. exact (match_url_stripped _ _ E).
Qed.

(** An extracted URL has no whitespace at either end: trimming leaves it as
    it is. *)
Lemma extract_urls_stripped (msgs : list Message) :
  Forall stripped (extract_urls msgs).
Proof.
  induction msgs as [|m msgs IH]; simpl; [constructor|].
  apply Forall_app. split; [apply findall_from_stripped | exact IH].
Qed.

Lemma map_strip_stripped (l : list str) : Forall stripped l -> map strip l = l.
Proof.
  induction 1 as [|x l Hx Hl IH]; simpl; [reflexivity|].
  rewrite Hx, IH. reflexivity.
Qed.

Lemma first_index_cons_other (x u : str) (l : list str) :
  x <> u -> first_index x (u :: l) = S (first_index x l).
Proof.
  intros H. simpl. destruct (str_eq_dec x u); [contradiction|reflexivity].
Qed.

Lemma sorted_shift (f g : str -> nat) (l : list str) :
  (forall x, In x l -> g x = S (f x)) ->
  StronglySorted lt (map f l) -> StronglySorted lt (map g l).
Proof.
  induction l as [|a l IH]; simpl; intros Hg Hf; [constructor|].
  inversion Hf as [|? ? Hs Hall]; subst. constructor.
  - apply IH; auto.
  - rewrite Forall_map in *. rewrite Forall_forall in *. intros x Hx.
    rewrite (Hg a), (Hg x); auto. specialize (Hall x Hx). lia.
Qed.

(** The loop appends to [unique_urls], in the order of their first
    occurrence, the URLs not yet in it. *)
Lemma unique_loop_appends (urls : list str) :
  forall (seen : set str) (acc : list str),
  (forall x, set_In x seen <-> In x acc) ->
  exists tail,
    unique_loop seen acc urls = acc ++ tail
    /\ NoDup tail
    /\ (forall x, In x tail <-> In x urls /\ ~ In x acc)
    /\ StronglySorted lt (map (fun u => first_index u urls) tail).
Proof.
  induction urls as [|u rest IH]; intros seen acc Hseen.
  - exists []. simpl. rewrite app_nil_r. repeat split; try constructor; tauto.
  - simpl. destruct (set_mem str_eq_dec u seen) eqn:Emem.
    + apply set_mem_correct1 in Emem. apply Hseen in Emem.
      destruct (IH seen acc Hseen) as (tail & Hout & Hnd & Hin & Hsort).
      exists tail. repeat split; auto.
      * apply Hin in H. right. apply H.
      * apply Hin in H. apply H.
      * intros (Hx & Hacc). apply Hin. split; auto.
        destruct Hx as [<- | Hx]; [contradiction | exact Hx].
      * apply (sorted_shift (fun x => first_index x rest)); auto.
        intros x Hx. apply first_index_cons_other.
        intros ->. apply Hin in Hx. tauto.
    + apply set_mem_complete1 in Emem.
      assert (Hu : ~ In u acc) by (intros H; apply Emem, Hseen, H).
      destruct (IH (set_add str_eq_dec u seen) (acc ++ [u])) as (tail & Hout & Hnd & Hin & Hsort).
      { intros x. rewrite set_add_iff, in_app_iff, Hseen. simpl. intuition congruence. }
      exists (u :: tail). rewrite Hout, <- app_assoc. simpl. repeat split.
      * constructor; auto. intros H. apply Hin in H. destruct H as (_ & H).
        apply H. apply in_app_iff. right. left. reflexivity.
      * destruct H as [<- | H]; [left; reflexivity|]. right. apply Hin in H. apply H.
      * destruct H as [<- | H]; [exact Hu|]. apply Hin in H. destruct H as (_ & H).
        intros Hacc. apply H. apply in_app_iff. left. exact Hacc.
      * intros (Hx & Hacc). destruct (str_eq_dec u x) as [E | N]; [left; exact E|].
        right. apply Hin. split; [destruct Hx; [contradiction|assumption]|].
        rewrite in_app_iff. simpl. intuition congruence.
      * assert (Hne : forall x, In x tail -> x <> u).
        { intros x Hx ->. apply Hin in Hx. destruct Hx as (_ & H).
          apply H. apply in_app_iff. right. left. reflexivity. }
        destruct (str_eq_dec u u) as [_|N]; [|congruence].
        constructor.
        -- apply (sorted_shift (fun x => first_index x rest)); auto.
           intros x Hx. destruct (str_eq_dec x u); [|reflexivity].
           exfalso. apply (Hne x Hx). assumption.
        -- rewrite Forall_map, Forall_forall. intros x Hx.
           destruct (str_eq_dec x u); [|lia].
           exfalso. apply (Hne x Hx). assumption.
Qed.

Lemma unique_first_occurrences (urls : list str) :
  NoDup (unique urls)
  /\ (forall x, In x (unique urls) <-> In x urls)
  /\ StronglySorted lt (map (fun u => first_index u urls) (unique urls)).
Proof.
  destruct (unique_loop_appends urls (empty_set str) []) as (tail & Hout & Hnd & Hin & Hs).
  { intros x. simpl. tauto. }
  unfold unique. rewrite Hout. simpl. repeat split; auto.
  - intros H. apply Hin in H. apply H.
  - intros H. apply Hin. split; auto.
Qed.

Lemma unique_length (urls : list str) :
  length (unique urls) = distinct_count urls.
Proof.
  destruct (unique_first_occurrences urls) as (Hnd & Hin & _).
  unfold distinct_count. apply Permutation_length.
  apply NoDup_Permutation; auto.
  - apply NoDup_nodup.
  - intros x. rewrite nodup_In. apply Hin.
Qed.

End Unique.

(** C6.  The collector's output, [unique] of the URLs extracted from the
    messages, has as many elements as there are different trimmed values
    among the extracted URLs, no two of its elements are equal after
    trimming, it holds the extracted URLs and nothing else, and it lists
    them in the order of their first occurrence.  (An extracted URL has no
    whitespace at either end, so URLs equal after trimming are equal.) *)
Theorem C6_unique_references (msgs : list Message) :
  length (unique (extract_urls msgs))
  = distinct_count (map strip (extract_urls msgs))
  /\ NoDup (map strip (unique (extract_urls msgs)))
  /\ (forall u, In u (unique (extract_urls msgs)) <-> In u (extract_urls msgs))
  /\ StronglySorted lt
       (map (fun u => first_index (strip u) (map strip (extract_urls msgs)))
            (unique (extract_urls msgs))).
Proof.
  pose proof (extract_urls_stripped msgs) as Hs.
  destruct (unique_first_occurrences (extract_urls msgs)) as (Hnd & Hin & Hsort).
  assert (Hout : Forall stripped (unique (extract_urls msgs))).
  { rewrite Forall_forall in *. intros x Hx. apply Hs, Hin, Hx. }
  rewrite (map_strip_stripped _ Hs), (map_strip_stripped _ Hout).
  repeat split; auto.
  - apply unique_length.
  - apply Hin.
  - apply Hin.
  - erewrite map_ext_in; [exact Hsort|].
    intros u Hu. simpl. rewrite Forall_forall in Hout. rewrite (Hout u Hu).
    reflexivity.
Qed.

(** ** The Newsletter Collector: the body of a message *)

Lemma body_of_parts_skip (env : Env) (part : Part) (rest : list Part) :
  text_data part = None ->
  body_of_parts env (part :: rest) = body_of_parts env rest.
Proof.
  unfold text_data. simpl.
  destruct (str_eq_dec (mimeType part) text_plain).
  - destruct (body_data part) as [[|c d]|]; [reflexivity|discriminate|reflexivity].
  - destruct (str_eq_dec (mimeType part) text_html); [|reflexivity].
    destruct (body_data part) as [[|c d]|]; [reflexivity|discriminate|reflexivity].
Qed.

Lemma body_of_parts_take (env : Env) (part : Part) (rest : list Part) (data : str) :
  text_data part = Some data ->
  body_of_parts env (part :: rest) = b64decode_utf8 env data.
Proof.
  unfold text_data. simpl.
  destruct (str_eq_dec (mimeType part) text_plain).
  - destruct (body_data part) as [[|c d]|]; [discriminate| |discriminate].
    intros [= <-]. reflexivity.
  - destruct (str_eq_dec (mimeType part) text_html); [|discriminate].
    destruct (body_data part) as [[|c d]|]; [discriminate| |discriminate].
    intros [= <-]. reflexivity.
Qed.

(** C2 (as the code has it).  The body of a multi-part message is the
    decoded data of the first part, in part order, that is plain text or
    HTML and has data: the plain-text part when no HTML part with data comes
    before it, an HTML part otherwise; when no part of either kind has
    data, the body is the empty string. *)
Theorem C2_first_text_part_is_the_body (env : Env) (hs : list Header)
    (pd : option str) :
  (forall before part after data,
      Forall (fun q => text_data q = None) before ->
      text_data part = Some data ->
      _get_email_body env
        {| headers := hs; parts := Some (before ++ part :: after); payload_data := pd |}
      = b64decode_utf8 env data)
  /\ (forall ps,
        Forall (fun q => text_data q = None) ps ->
        _get_email_body env {| headers := hs; parts := Some ps; payload_data := pd |}
        = Ok []).
Proof.
  unfold _get_email_body. simpl. split.
  - intros before part after data Hb Hp.
    induction Hb as [|q before Hq Hb IH]; simpl app.
    + apply body_of_parts_take. exact Hp.
    + rewrite (body_of_parts_skip env q _ Hq). exact IH.
  - intros ps Hps.
    induction Hps as [|q ps Hq Hps IH]; [reflexivity|].
    rewrite (body_of_parts_skip env q _ Hq). exact IH.
Qed.

Example plain_first_ex :
  _get_email_body mail_env (multipart [mixed_part; plain_part; html_part]) = Ok (lit "hi").
Proof. reflexivity. Qed.

Example html_fallback_ex :
  _get_email_body mail_env (multipart [empty_plain_part; html_part])
  = Ok (lit "<b>hi</b>").
Proof. reflexivity. Qed.

Example no_text_ex :
  _get_email_body mail_env (multipart [mixed_part; empty_plain_part]) = Ok [].
Proof. reflexivity. Qed.

(** C2, as stated, fails: with the HTML part first, the body is the HTML
    part, though the plain-text part is there and decodes. *)
Lemma C2_html_part_first_wins :
  b64decode_utf8 mail_env plain_data = Ok (lit "hi")
  /\ b64decode_utf8 mail_env html_data = Ok (lit "<b>hi</b>")
  /\ _get_email_body mail_env (multipart [html_part; plain_part]) = Ok (lit "<b>hi</b>")
  /\ _get_email_body mail_env (multipart [html_part; plain_part]) <> Ok (lit "hi").
Proof.
  repeat split; try reflexivity. vm_compute. discriminate.
Qed.

(** ** The Reference Collector: pages of the history *)

(** What the collector returns when the channel is found and the first page
    of its history is served: the URLs of that page, without duplicates. *)
Lemma fetch_slack_urls_first_page (env : Env) (client : WebClient) (name : str)
    (days_back : Z) (w : World) (channels : list Channel) (c : ascii) (cid : str)
    (page : HistoryPage) :
  conversations_list client = Ok channels ->
  find_channel_id channels name = Some (c :: cid) ->
  conversations_history client (c :: cid) (now env - days_back * 86400) None = Ok page ->
  returned (fetch_slack_urls env client name days_back w)
  = Some (unique (extract_urls (messages page))).
Proof.
  intros Hlist Hfind Hpage.
  unfold fetch_slack_urls, bind, call. rewrite Hlist, Hfind, Hpage. reflexivity.
Qed.

(** C3: the code at the failing input.  The history of the week has two
    pages; the collector asks for the first one only, so the URL of the
    older message, which is within the window, is not in its output. *)
Theorem C3_only_first_page_is_read :
  history_all 2 paged_client (lit "C02") (now mail_env - 7 * 86400) None
  = Ok [newer_message; older_message]
  /\ In older_url (extract_urls [newer_message; older_message])
  /\ returned (fetch_slack_urls mail_env paged_client papers_channel 7 empty_world)
     = Some [newer_url]
  /\ ~ In older_url [newer_url].
Proof.
  split; [reflexivity|]. split; [vm_compute; auto|]. split; [reflexivity|].
  simpl. intros [H | []]. discriminate H.
Qed.

(** With one page, every URL of the history is in the output. *)
Example cap_ex :
  match main mail_env many_client None papers_channel (lit "AI-Safety-Newsletters")
          (lit "2025/10/27") 7 empty_world with
  | (Ok corpus, w') =>
      map url (corpus_papers corpus) = firstn 50 many_urls
      /\ length (corpus_papers corpus) = 50%nat
      /\ hd_error (stdout w') = Some (Found_unique_URLs 120)
      /\ last (stdout w') Gmail_not_configured = Successfully_processed 0
  | (Raise _, _) => False
  end.
Proof. vm_compute. repeat split. Qed.

(** * Further properties of the code *)

(** ** URL detection *)

Section Findall.

Lemma match_url_parts (s u : str) :
  match_url s = Some u ->
  exists scheme body,
    u = scheme ++ body
    /\ (scheme = lit "http://" \/ scheme = lit "https://")
    /\ body <> []
    /\ Forall (fun c => url_char c = true) body.
Proof.
  unfold match_url, match_scheme.
  destruct (startswith (lit "https://") s).
  - pose proof (takewhile_Forall url_char (skipn 8 s)) as Hb.
    destruct (takewhile url_char (skipn 8 s)) as [|c b]; [discriminate|].
    intros [= <-]. exists (lit "https://"), (c :: b).
    repeat split; auto. discriminate.
  - destruct (startswith (lit "http://") s); [|discriminate].
    pose proof (takewhile_Forall url_char (skipn 7 s)) as Hb.
    destruct (takewhile url_char (skipn 7 s)) as [|c b]; [discriminate|].
    intros [= <-]. exists (lit "http://"), (c :: b).
    repeat split; auto. discriminate.
Qed.

Lemma takewhile_run (p : ascii -> bool) (body rest : str) :
  Forall (fun c => p c = true) body ->
  match rest with [] => True | c :: _ => p c = false end ->
  takewhile p (body ++ rest) = body.
Proof.
  intros Hb Hr. induction Hb as [|c body Hc Hb IH]; simpl.
  - destruct rest as [|c rest]; [reflexivity|]. simpl. rewrite Hr. reflexivity.
  - rewrite Hc, IH. reflexivity.
Qed.

Lemma findall_from_skip (a rest : str) :
  findall_from (length a) (a ++ rest) = findall_from 0 rest.
Proof.
  induction a as [|c a IH]; [reflexivity|]. simpl. exact IH.
Qed.

Lemma match_url_run (scheme body rest : str) :
  scheme = lit "http://" \/ scheme = lit "https://" ->
  body <> [] ->
  Forall (fun c => url_char c = true) body ->
  match rest with [] => True | c :: _ => url_char c = false end ->
  match_url (scheme ++ body ++ rest) = Some (scheme ++ body).
Proof.
  intros Hs Hne Hb Hr. unfold match_url, match_scheme.
  destruct Hs as [-> | ->].
  - change (startswith (lit "https://") (lit "http://" ++ body ++ rest)) with false.
    change (startswith (lit "http://") (lit "http://" ++ body ++ rest)) with true.
    change (skipn 7 (lit "http://" ++ body ++ rest)) with (body ++ rest).
    cbv beta iota. rewrite (takewhile_run url_char body rest Hb Hr).
    destruct body; [congruence | reflexivity].
  - change (startswith (lit "https://") (lit "https://" ++ body ++ rest)) with true.
    change (skipn 8 (lit "https://" ++ body ++ rest)) with (body ++ rest).
    cbv beta iota. rewrite (takewhile_run url_char body rest Hb Hr).
    destruct body; [congruence | reflexivity].
Qed.

End Findall.

(** X1.  Every URL the scan extracts is [http://] or [https://] followed by
    at least one character, all of them of the URL classes of the pattern
    (so none is whitespace, a double quote, [#], [~] or a brace). *)
Theorem X1_extracted_urls_shape (msgs : list Message) :
  Forall (fun u => exists scheme body,
            u = scheme ++ body
            /\ (scheme = lit "http://" \/ scheme = lit "https://")
            /\ body <> []
            /\ Forall (fun c => url_char c = true) body)
         (extract_urls msgs).
Proof.
  assert (Hfind : forall s skip,
    Forall (fun u => exists scheme body,
              u = scheme ++ body
              /\ (scheme = lit "http://" \/ scheme = lit "https://")
              /\ body <> []
              /\ Forall (fun c => url_char c = true) body)
           (findall_from skip s)).
  { induction s as [|c s IH]; intros skip; simpl; [constructor|].
    destruct skip; [|apply IH].
    destruct (match_url (c :: s)) as [m|] eqn:E; [|apply IH].
    constructor; [exact (match_url_parts _ _ E) | apply IH]. }
  induction msgs as [|m msgs IH]; simpl; [constructor|].
  apply Forall_app. split; [apply Hfind | exact IH].
Qed.

(** X2.  A match runs as far as the characters of the URL classes go: a
    scheme followed by such characters up to the end of the text, or up to a
    character outside the classes, is extracted whole, and the scan goes on
    after it.  Closing punctuation such as [>], [)] or [,] belongs to the
    classes and stays in the URL. *)
Theorem X2_match_takes_the_whole_run (scheme body rest : str) :
  scheme = lit "http://" \/ scheme = lit "https://" ->
  body <> [] ->
  Forall (fun c => url_char c = true) body ->
  match rest with [] => True | c :: _ => url_char c = false end ->
  findall_url (scheme ++ body ++ rest) = (scheme ++ body) :: findall_url rest.
Proof.
  intros Hs Hne Hb Hr.
  pose proof (match_url_run scheme body rest Hs Hne Hb Hr) as Hm.
  assert (Hcons : exists h tl, scheme ++ body = h :: tl).
  { destruct Hs as [-> | ->]; do 2 eexists; reflexivity. }
  destruct Hcons as (h & tl & Htl).
  unfold findall_url. rewrite app_assoc in *. rewrite Htl in *.
  cbn [app] in *. cbn [findall_from]. rewrite Hm.
  f_equal. replace (length (h :: tl) - 1)%nat with (length tl) by (simpl; lia).
  apply findall_from_skip.
Qed.

Lemma X2_closing_bracket_witness :
  findall_url (lit "https://" ++ lit "arxiv.org/abs/1234.5678>" ++ lit " is out")
  = (lit "https://" ++ lit "arxiv.org/abs/1234.5678>") :: findall_url (lit " is out").
Proof.
  apply (X2_match_takes_the_whole_run (lit "https://")
           (lit "arxiv.org/abs/1234.5678>") (lit " is out")).
  - right. reflexivity.
  - discriminate.
  - repeat constructor.
  - reflexivity.
Defined.

(** ** Duplicates *)

Lemma unique_loop_fresh (l : list str) :
  forall (seen : set str) (acc : list str),
  (forall x, set_In x seen <-> In x acc) ->
  NoDup l -> (forall x, In x l -> ~ In x acc) ->
  unique_loop seen acc l = acc ++ l.
Proof.
  induction l as [|u rest IH]; intros seen acc Hseen Hnd Hfresh; simpl.
  - rewrite app_nil_r. reflexivity.
  - inversion Hnd as [|? ? Hu Hrest]; subst.
    rewrite set_mem_complete2.
    2:{ intros H. apply Hseen in H. apply (Hfresh u); [left; reflexivity | exact H]. }
    rewrite IH; auto.
    + rewrite <- app_assoc. reflexivity.
    + intros x. rewrite set_add_iff, in_app_iff, Hseen. simpl. intuition congruence.
    + intros x Hx Hin. apply in_app_iff in Hin. destruct Hin as [Hin | [<- | []]].
      * apply (Hfresh x); [right; exact Hx | exact Hin].
      * contradiction.
Qed.

(** X3.  A list without duplicates goes through [unique] unchanged, and
    removing duplicates twice is the same as once. *)
Theorem X3_unique_fixes_distinct_lists (l : list str) :
  (NoDup l -> unique l = l) /\ unique (unique l) = unique l.
Proof.
  assert (H : forall l0, NoDup l0 -> unique l0 = l0).
  { intros l0 Hnd. unfold unique.
    rewrite unique_loop_fresh; auto; simpl; tauto. }
  split; [apply H|]. apply H. apply unique_first_occurrences.
Qed.

(** ** Errors of the collectors *)

Lemma find_channel_id_none (channels : list Channel) (name : str) :
  (forall ch, In ch channels -> channel_name ch <> name) ->
  find_channel_id channels name = None.
Proof.
  induction channels as [|ch rest IH]; intros H; simpl; [reflexivity|].
  destruct (str_eq_dec (channel_name ch) name) as [E|_].
  - exfalso. apply (H ch); [left; reflexivity | exact E].
  - apply IH. intros c Hc. apply H. right. exact Hc.
Qed.

(** X4.  When no channel of the workspace has the given name, the collector
    prints that the channel was not found and returns no URL; the history
    is not asked for, so what it would answer makes no difference. *)
Theorem X4_unknown_channel_gives_no_urls (env : Env) (client : WebClient)
    (name : str) (days_back : Z) (w : World) (channels : list Channel) :
  conversations_list client = Ok channels ->
  (forall ch, In ch channels -> channel_name ch <> name) ->
  fetch_slack_urls env client name days_back w
  = (Ok [], {| fs := fs w; stdout := stdout w ++ [Channel_not_found name] |}).
Proof.
  intros Hlist Hnone. unfold fetch_slack_urls, bind, call.
  rewrite Hlist, (find_channel_id_none channels name Hnone). reflexivity.
Qed.

Lemma X4_unknown_channel_witness :
  fetch_slack_urls mail_env paged_client (lit "random") 7 empty_world
  = (Ok [], {| fs := fs empty_world;
               stdout := stdout empty_world ++ [Channel_not_found (lit "random")] |}).
Proof.
  apply (X4_unknown_channel_gives_no_urls mail_env paged_client (lit "random") 7
           empty_world
           [ {| channel_name := lit "general"; channel_id := lit "C01" |};
             {| channel_name := papers_channel; channel_id := lit "C02" |} ]).
  - reflexivity.
  - intros ch [<- | [<- | []]]; discriminate.
Defined.

(** X5.  An error of the chat service is not caught.  When the list of
    channels cannot be had, or, for a window of at most ten years
    ([0 <= days_back <= 3650], so that the date of line 56 can be
    computed), the history of the channel cannot be had,
    [fetch_slack_urls] raises that error, having printed nothing and
    touched no file, and [main] ends with the same error. *)
Theorem X5_chat_errors_abort_the_run (env : Env) (client : WebClient)
    (gmail : option GmailService) (channel label date_filter : str)
    (days_back : Z) (w : World) (e : Exn) :
  (conversations_list client = Raise e
   \/ ((0 <= days_back <= 3650)%Z
       /\ exists channels c cid,
            conversations_list client = Ok channels
            /\ find_channel_id channels channel = Some (c :: cid)
            /\ conversations_history client (c :: cid) (now env - days_back * 86400) None
               = Raise e)) ->
  fetch_slack_urls env client channel days_back w = (Raise e, w)
  /\ fst (main env client gmail channel label date_filter days_back w) = Raise e.
Proof.
  intros H.
  assert (Hf : fetch_slack_urls env client channel days_back w = (Raise e, w)).
  { unfold fetch_slack_urls, bind, call.
    destruct H as [-> | (_ & channels & c & cid & -> & -> & ->)]; reflexivity. }
  split; [exact Hf|]. unfold main, bind at 1. rewrite Hf. reflexivity.
Qed.

Lemma X5_chat_errors_witness :
  fetch_slack_urls mail_env paged_client (lit "general") 7 empty_world
  = (Raise {| exn_str := lit "channel_not_found" |}, empty_world)
  /\ fst (main mail_env paged_client None (lit "general") (lit "AI-Safety-Newsletters")
            (lit "2025/10/27") 7 empty_world)
     = Raise {| exn_str := lit "channel_not_found" |}.
Proof.
  apply (X5_chat_errors_abort_the_run mail_env paged_client None (lit "general")
           (lit "AI-Safety-Newsletters") (lit "2025/10/27") 7 empty_world).
  right. split; [lia|]. do 3 eexists. repeat split; reflexivity.
Defined.

(** ** The Newsletter Collector *)

Lemma newsletters_loop_readable (env : Env) (service : GmailService)
    (ids : list str) :
  forall (acc : list Newsletter) (w : World),
  Forall (readable env service) ids ->
  exists new,
    newsletters_loop env service ids acc w = (Ok (acc ++ new), w)
    /\ Forall2 (newsletter_of env service) ids new.
Proof.
  induction ids as [|msg_id rest IH]; intros acc w Hall; simpl.
  - exists []. rewrite app_nil_r. split; [reflexivity | constructor].
  - inversion Hall as [|? ? (payload & text & Hget & Hbody) Hrest]; subst.
    unfold bind at 1, call at 1. rewrite Hget.
    unfold bind at 1, call at 1. rewrite Hbody.
    destruct (IH (acc ++ [{| subject := find_subject (headers payload);
                             body := text; newsletter_id := msg_id |}]) w Hrest)
      as (new & Hloop & Hnew).
    rewrite Hloop, <- app_assoc. eexists. split; [reflexivity|].
    constructor; [|exact Hnew]. split; [reflexivity|].
    exists payload. simpl. auto.
Qed.

Lemma newsletters_loop_unreadable (env : Env) (service : GmailService)
    (before : list str) (msg_id : str) (after : list str) (e : Exn) :
  forall (acc : list Newsletter) (w : World),
  Forall (readable env service) before ->
  (messages_get service msg_id = Raise e
   \/ exists payload, messages_get service msg_id = Ok payload
                      /\ _get_email_body env payload = Raise e) ->
  newsletters_loop env service (before ++ msg_id :: after) acc w = (Raise e, w).
Proof.
  induction before as [|b before IH]; intros acc w Hall Hbad; simpl.
  - unfold bind at 1, call at 1.
    destruct Hbad as [-> | (payload & -> & Hbody)]; [reflexivity|].
    unfold bind at 1, call at 1. rewrite Hbody. reflexivity.
  - inversion Hall as [|? ? (payload & text & Hget & Hbody) Hrest]; subst.
    unfold bind at 1, call at 1. rewrite Hget.
    unfold bind at 1, call at 1. rewrite Hbody.
    apply IH; assumption.
Qed.

(** X6.  When every message that matches the query can be fetched and its
    body extracted, the collector returns one newsletter for each message,
    in the order of the answer: it carries the id of the message, the value
    of its first [Subject] header (empty if there is none) and its body; and
    the number printed is the number of messages.  The query is
    [label:<label> after:<date>]. *)
Theorem X6_one_newsletter_per_message (env : Env) (service : GmailService)
    (label date_filter : str) (ids : list str) (w : World) :
  messages_list service (lit "label:" ++ label ++ lit " after:" ++ date_filter)
  = Ok (Some ids) ->
  Forall (readable env service) ids ->
  exists newsletters,
    fetch_gmail_newsletters env (Some service) label date_filter w
    = (Ok newsletters,
       {| fs := fs w; stdout := stdout w ++ [Found_newsletters (length ids)] |})
    /\ Forall2 (newsletter_of env service) ids newsletters.
Proof.
  intros Hlist Hall. unfold fetch_gmail_newsletters.
  unfold bind at 1, call at 1. rewrite Hlist.
  destruct (newsletters_loop_readable env service ids [] w Hall) as (new & Hloop & Hnew).
  unfold bind at 1. rewrite Hloop. simpl.
  exists new. split; [|exact Hnew].
  unfold bind, print, ret. simpl.
  rewrite (Forall2_length Hnew). reflexivity.
Qed.

(** X7.  The collector has no [try]: when a message cannot be fetched, or
    the data of its body cannot be decoded, the exception leaves
    [fetch_gmail_newsletters], which has printed nothing and returns none
    of the newsletters it had read; [main], once the references are
    collected, ends with that exception. *)
Theorem X7_one_bad_message_aborts (env : Env) (service : GmailService)
    (client : WebClient) (channel label date_filter : str) (days_back : Z)
    (before : list str) (msg_id : str) (after : list str) (e : Exn)
    (w : World) (slack_urls : list str) :
  messages_list service (lit "label:" ++ label ++ lit " after:" ++ date_filter)
  = Ok (Some (before ++ msg_id :: after)) ->
  Forall (readable env service) before ->
  (messages_get service msg_id = Raise e
   \/ exists payload, messages_get service msg_id = Ok payload
                      /\ _get_email_body env payload = Raise e) ->
  returned (fetch_slack_urls env client channel days_back w) = Some slack_urls ->
  (forall w1, fetch_gmail_newsletters env (Some service) label date_filter w1
              = (Raise e, w1))
  /\ fst (main env client (Some service) channel label date_filter days_back w)
     = Raise e.
Proof.
  intros Hlist Hall Hbad Hslack.
  assert (Hg : forall w1,
             fetch_gmail_newsletters env (Some service) label date_filter w1
             = (Raise e, w1)).
  { intros w1. unfold fetch_gmail_newsletters. unfold bind at 1, call at 1.
    rewrite Hlist. unfold bind at 1.
    rewrite (newsletters_loop_unreadable env service before msg_id after e [] w1 Hall Hbad).
    reflexivity. }
  split; [exact Hg|].
  unfold main. unfold bind at 1.
  destruct (fetch_slack_urls env client channel days_back w) as [[urls|e'] w1];
    [|discriminate].
  unfold bind at 1. rewrite Hg. reflexivity.
Qed.

Lemma X6_one_newsletter_per_message_witness :
  exists newsletters,
    fetch_gmail_newsletters mail_env (Some (mail_service [lit "m1"; lit "m2"]))
      (lit "AI-Safety-Newsletters") (lit "2025/10/27") empty_world
    = (Ok newsletters,
       {| fs := fs empty_world;
          stdout := stdout empty_world ++ [Found_newsletters (length [lit "m1"; lit "m2"])] |})
    /\ Forall2 (newsletter_of mail_env (mail_service [lit "m1"; lit "m2"]))
         [lit "m1"; lit "m2"] newsletters.
Proof.
  apply (X6_one_newsletter_per_message mail_env (mail_service [lit "m1"; lit "m2"])
           (lit "AI-Safety-Newsletters") (lit "2025/10/27") [lit "m1"; lit "m2"]
           empty_world).
  - reflexivity.
  - repeat constructor; do 2 eexists; split; reflexivity.
Defined.

Lemma X7_one_bad_message_witness :
  (forall w1,
     fetch_gmail_newsletters mail_env (Some (mail_service [lit "m1"; lit "m3"; lit "m2"]))
       (lit "AI-Safety-Newsletters") (lit "2025/10/27") w1
     = (Raise {| exn_str := lit "Incorrect padding" |}, w1))
  /\ fst (main mail_env paged_client (Some (mail_service [lit "m1"; lit "m3"; lit "m2"]))
            papers_channel (lit "AI-Safety-Newsletters") (lit "2025/10/27") 7 empty_world)
     = Raise {| exn_str := lit "Incorrect padding" |}.
Proof.
  apply (X7_one_bad_message_aborts mail_env (mail_service [lit "m1"; lit "m3"; lit "m2"])
           paged_client papers_channel (lit "AI-Safety-Newsletters") (lit "2025/10/27") 7
           [lit "m1"] (lit "m3") [lit "m2"] {| exn_str := lit "Incorrect padding" |}
           empty_world [newer_url]).
  - reflexivity.
  - repeat constructor; do 2 eexists; split; reflexivity.
  - right. eexists. split; reflexivity.
  - reflexivity.
Defined.

(** ** The Document Resolver: kind, fetch URL, text, files *)



(** X8.  The kind of an outcome is decided by the reference alone: [pdf]
    when the reference contains [arxiv.org] or ends in [.pdf], [webpage]
    otherwise, whether the fetch succeeds or fails. *)
Theorem X8_kind_is_decided_by_the_reference (env : Env) (u : str) (w : World) :
  exists o w',
    download_paper_content env u w = (Ok o, w')
    /\ type o = if contains (lit "arxiv.org") u || endswith (lit ".pdf") u
                then lit "pdf" else lit "webpage".
Proof.
  unfold download_paper_content, bind, print.
  destruct (contains (lit "arxiv.org") u); cbn [orb]; cbv beta iota.
  - match goal with |- context [_download_pdf env ?p u ?w0] =>
      destruct (_download_pdf_returns env p u w0) as (o & w' & Hrun & _ & Ht & _) end.
    exists o, w'. auto.
  - destruct (endswith (lit ".pdf") u).
    + match goal with |- context [_download_pdf env ?p u ?w0] =>
        destruct (_download_pdf_returns env p u w0) as (o & w' & Hrun & _ & Ht & _) end.
      exists o, w'. auto.
    + match goal with |- context [_fetch_webpage env u ?w0] =>
        destruct (_fetch_webpage_returns env u w0) as (o & w' & Hrun & _ & Ht & _) end.
      exists o, w'. auto.
Qed.


Lemma pages_text_all (pages : list Page) :
  Forall (fun page => exists t, extract_text page = Ok t) pages ->
  forall text w, pages_text pages text w = (Ok (text ++ page_texts pages), w).
Proof.
  induction 1 as [|page rest (t & Ht) Hrest IH]; intros text w; simpl.
  - rewrite app_nil_r. reflexivity.
  - unfold bind, call. rewrite Ht. rewrite IH.
    unfold page_texts. simpl. rewrite Ht, <- app_assoc. reflexivity.
Qed.

Lemma pages_text_fails (before : list Page) (page : Page) (after : list Page)
    (e : Exn) :
  Forall (fun page => exists t, extract_text page = Ok t) before ->
  extract_text page = Raise e ->
  forall text w, pages_text (before ++ page :: after) text w = (Raise e, w).
Proof.
  intros Hall Hbad.
  induction Hall as [|b rest (t & Ht) Hrest IH]; intros text w; simpl.
  - unfold bind, call. rewrite Hbad. reflexivity.
  - unfold bind, call. rewrite Ht. apply IH.
Qed.

(** X10.  When the download succeeds and every page gives its text (or
    none), the outcome of [_download_pdf] is a success whose content is the
    first 100000 characters of the texts of the pages put one after the
    other in page order, with nothing between them. *)
Theorem X10_pdf_content_is_the_pages (env : Env) (pdf_url original_url : str)
    (w : World) (response : Response) (pages : list Page) :
  requests_get env pdf_url None = Ok response ->
  status_error response = None ->
  pdfplumber_pages env (response_content response) = Ok pages ->
  Forall (fun page => exists t, extract_text page = Ok t) pages ->
  returned (_download_pdf env pdf_url original_url w)
  = Some {| url := original_url; type := lit "pdf";
            content := slice_to PDF_CAP (page_texts pages);
            success := true; error := None |}.
Proof.
  intros Hget Hst Hpages Hall.
  unfold _download_pdf, try_except, bind, call, raise_for_status.
  rewrite Hget, Hst. simpl. unfold read_file. simpl.
  destruct (str_eq_dec pdf_path pdf_path) as [_|N]; [|congruence].
  rewrite Hpages. rewrite (pages_text_all pages Hall). simpl.
  unfold os_remove. simpl.
  destruct (str_eq_dec pdf_path pdf_path) as [_|N]; [|congruence].
  reflexivity.
Qed.

Lemma X10_pdf_content_witness :
  returned (_download_pdf arxiv_env arxiv_pdf arxiv_abs_url empty_world)
  = Some {| url := arxiv_abs_url; type := lit "pdf";
            content := slice_to PDF_CAP
              (page_texts [ {| extract_text := Ok (Some (lit "Page one. ")) |};
                            {| extract_text := Ok None |};
                            {| extract_text := Ok (Some (lit "Page three.")) |} ]);
            success := true; error := None |}.
Proof.
  apply (X10_pdf_content_is_the_pages arxiv_env arxiv_pdf arxiv_abs_url empty_world
           {| status_error := None; response_content := pdf_bytes; response_text := [] |}).
  - reflexivity.
  - reflexivity.
  - reflexivity.
  - repeat constructor; eexists; reflexivity.
Defined.

(** X11.  One page whose text extraction fails fails the whole document:
    the outcome is a failure with that page's exception as error, and the
    text of the pages before it is not kept. *)
Theorem X11_one_bad_page_fails_the_pdf (env : Env) (pdf_url original_url : str)
    (w : World) (response : Response) (before : list Page) (page : Page)
    (after : list Page) (e : Exn) :
  requests_get env pdf_url None = Ok response ->
  status_error response = None ->
  pdfplumber_pages env (response_content response) = Ok (before ++ page :: after) ->
  Forall (fun page => exists t, extract_text page = Ok t) before ->
  extract_text page = Raise e ->
  returned (_download_pdf env pdf_url original_url w)
  = Some {| url := original_url; type := lit "pdf"; content := [];
            success := false; error := Some (exn_str e) |}.
Proof.
  intros Hget Hst Hpages Hall Hbad.
  unfold _download_pdf, try_except, bind, call, raise_for_status.
  rewrite Hget, Hst. simpl. unfold read_file. simpl.
  destruct (str_eq_dec pdf_path pdf_path) as [_|N]; [|congruence].
  rewrite Hpages. rewrite (pages_text_fails before page after e Hall Hbad).
  reflexivity.
Qed.

Lemma X11_one_bad_page_witness :
  returned (_download_pdf torn_env torn_url torn_url empty_world)
  = Some {| url := torn_url; type := lit "pdf"; content := [];
            success := false; error := Some (exn_str torn_page_error) |}.
Proof.
  apply (X11_one_bad_page_fails_the_pdf torn_env torn_url torn_url empty_world
           {| status_error := None; response_content := pdf_bytes; response_text := [] |}
           [ {| extract_text := Ok (Some (lit "Page one. ")) |} ]
           {| extract_text := Raise torn_page_error |}
           [ {| extract_text := Ok (Some (lit "Page three.")) |} ]
           torn_page_error).
  - reflexivity.
  - reflexivity.
  - reflexivity.
  - repeat constructor. eexists. reflexivity.
  - reflexivity.
Defined.

Lemma _download_pdf_files (env : Env) (pdf_url original_url : str) (w : World) :
  exists o w',
    _download_pdf env pdf_url original_url w = (Ok o, w')
    /\ (forall p, p <> pdf_path -> fs w' p = fs w p)
    /\ ((success o = true /\ fs w' pdf_path = None)
        \/ (success o = false /\ fs w' pdf_path = fs w pdf_path
            /\ ((exists e, requests_get env pdf_url None = Raise e)
                \/ exists r e, requests_get env pdf_url None = Ok r
                               /\ status_error r = Some e))
        \/ (success o = false
            /\ exists r, requests_get env pdf_url None = Ok r
                         /\ status_error r = None
                         /\ fs w' pdf_path = Some (response_content r))).
Proof.
  unfold _download_pdf, try_except, bind, call, raise_for_status.
  step_result (requests_get env pdf_url None) r.
  2:{ do 2 eexists. split; [reflexivity|]. simpl. split; [reflexivity|].
      right. left. repeat split. left. eexists. reflexivity. }
  destruct (status_error r) as [e|] eqn:Hst; simpl.
  { do 2 eexists. split; [reflexivity|]. simpl. split; [reflexivity|].
    right. left. repeat split. right. exists r, e. auto. }
  unfold read_file; simpl.
  destruct (str_eq_dec pdf_path pdf_path) as [_|N]; [|congruence].
  assert (Hother : forall (A : Type) (x y : A) p, p <> pdf_path ->
            (if str_eq_dec p pdf_path then x else y) = y).
  { intros A x y p Hp. destruct (str_eq_dec p pdf_path); [contradiction|reflexivity]. }
  assert (Hsame : forall (A : Type) (x y : A),
            (if str_eq_dec pdf_path pdf_path then x else y) = x).
  { intros A x y. destruct (str_eq_dec pdf_path pdf_path); [reflexivity|congruence]. }
  step_result (pdfplumber_pages env (response_content r)) pages.
  2:{ do 2 eexists. split; [reflexivity|]. simpl. split; [intros p Hp; apply Hother, Hp|].
      right. right. split; [reflexivity|]. exists r. rewrite ?Hsame. auto. }
  match goal with |- context [pages_text ?ps ?t _] =>
    destruct (pages_text_world ps t) as [rt Hrt]; rewrite Hrt end.
  destruct rt as [text|e]; simpl.
  2:{ do 2 eexists. split; [reflexivity|]. simpl. split; [intros p Hp; apply Hother, Hp|].
      right. right. split; [reflexivity|]. exists r. rewrite ?Hsame. auto. }
  unfold os_remove; simpl. rewrite ?Hsame. simpl.
  do 2 eexists. split; [reflexivity|]. simpl. split.
  - intros p Hp. rewrite ?Hother by exact Hp. reflexivity.
  - left. rewrite ?Hsame. auto.
Qed.

(** X12.  Resolving a reference touches no file but [/tmp/temp_paper.pdf]:
    every other path holds afterwards what it held before, and a web
    document leaves the temporary file alone as well. *)
Theorem X12_only_the_temporary_file_is_touched (env : Env) (u : str) (w : World) :
  (forall p, p <> pdf_path ->
     fs (snd (download_paper_content env u w)) p = fs w p)
  /\ fs (snd (_fetch_webpage env u w)) = fs w.
Proof.
  split.
  - intros p Hp. unfold download_paper_content, bind, print.
    assert (Hpdf : forall q w0, fs (snd (_download_pdf env q u w0)) p = fs w0 p).
    { intros q w0. destruct (_download_pdf_files env q u w0) as (o & w' & Hrun & Hfs & _).
      rewrite Hrun. simpl. apply Hfs, Hp. }
    destruct (contains (lit "arxiv.org") u); [rewrite Hpdf; reflexivity|].
    destruct (endswith (lit ".pdf") u); [rewrite Hpdf; reflexivity|].
    match goal with |- context [_fetch_webpage env u ?w0] =>
      destruct (_fetch_webpage_returns env u w0) as (o & w' & Hrun & _ & _ & Hfs & _) end.
    rewrite Hrun. simpl. rewrite Hfs. reflexivity.
  - destruct (_fetch_webpage_returns env u w) as (o & w' & Hrun & _ & _ & Hfs & _).
    rewrite Hrun. exact Hfs.
Qed.


Lemma pages_cases (pages : list Page) :
  Forall page_ok pages
  \/ exists before page after e,
       pages = before ++ page :: after
       /\ Forall page_ok before
       /\ extract_text page = Raise e.
Proof.
  induction pages as [|page rest IH].
  - left. constructor.
  - destruct (extract_text page) as [t|e] eqn:Hp.
    + destruct IH as [Hall | (before & bad & after & e & -> & Hall & Hbad)].
      * left. constructor; [exists t; exact Hp | exact Hall].
      * right. exists (page :: before), bad, after, e.
        split; [reflexivity|]. split; [|exact Hbad].
        constructor; [exists t; exact Hp | exact Hall].
    + right. exists [], page, rest, e. split; [reflexivity|]. split; [constructor | exact Hp].
Qed.

(** X13.  What becomes of the temporary file in [_download_pdf].  After a
    success it does not exist, even if it existed before.  When the
    download itself fails (no answer, or an error status) the outcome is a
    failure and every file is as it was before.  When the download went
    through and the document then cannot be opened, or one of its pages
    cannot be read, the outcome is a failure and the file is left behind
    with the bytes of the answer. *)
Theorem X13_fate_of_the_temporary_file (env : Env) (pdf_url original_url : str)
    (w : World) :
  exists o w',
    _download_pdf env pdf_url original_url w = (Ok o, w')
    /\ (success o = true -> fs w' pdf_path = None)
    /\ ((exists e, requests_get env pdf_url None = Raise e)
        \/ (exists r e, requests_get env pdf_url None = Ok r /\ status_error r = Some e)
        -> success o = false /\ forall p, fs w' p = fs w p)
    /\ (forall r, requests_get env pdf_url None = Ok r ->
          status_error r = None ->
          (exists e, pdfplumber_pages env (response_content r) = Raise e)
          \/ (exists pages, pdfplumber_pages env (response_content r) = Ok pages
                            /\ ~ Forall page_ok pages) ->
          success o = false /\ fs w' pdf_path = Some (response_content r)).
Proof.
  unfold _download_pdf, try_except, bind, call, raise_for_status.
  step_result (requests_get env pdf_url None) r.
  2:{ do 2 eexists. split; [reflexivity|]. simpl. split; [discriminate|].
      split; [intros _; split; reflexivity|]. intros r0 H; discriminate. }
  destruct (status_error r) as [e|] eqn:Hst; simpl.
  { do 2 eexists. split; [reflexivity|]. simpl. split; [discriminate|].
    split; [intros _; split; reflexivity|].
    intros r0 [= <-] H. congruence. }
  unfold read_file; simpl.
  destruct (str_eq_dec pdf_path pdf_path) as [_|N]; [|congruence].
  assert (Hsame : forall (A : Type) (x y : A),
            (if str_eq_dec pdf_path pdf_path then x else y) = x).
  { intros A x y. destruct (str_eq_dec pdf_path pdf_path); [reflexivity|congruence]. }
  assert (Hget : ~ ((exists e, @Ok Response r = Raise e)
                    \/ (exists r0 e, Ok r = Ok r0 /\ status_error r0 = Some e))).
  { intros [(e & H) | (r0 & e & [= <-] & H)]; [discriminate | congruence]. }
  step_result (pdfplumber_pages env (response_content r)) pages.
  2:{ do 2 eexists. split; [reflexivity|]. simpl. split; [discriminate|].
      split; [intros H; destruct (Hget H)|].
      intros r0 [= <-] _ _. rewrite ?Hsame. auto. }
  destruct (pages_cases pages) as [Hall | (before & bad & after & e & -> & Hall & Hbad)].
  - rewrite (pages_text_all pages Hall). simpl.
    unfold os_remove; simpl. rewrite ?Hsame. simpl.
    do 2 eexists. split; [reflexivity|]. simpl. rewrite ?Hsame.
    split; [reflexivity|]. split; [intros H; destruct (Hget H)|].
    intros r0 [= <-] _ [(e & H) | (pages' & H1 & H2)]; [congruence|].
    assert (pages' = pages) by congruence. subst pages'. contradiction.
  - rewrite (pages_text_fails before bad after e Hall Hbad). simpl.
    do 2 eexists. split; [reflexivity|]. simpl. split; [discriminate|].
    split; [intros H; destruct (Hget H)|].
    intros r0 [= <-] _ _. rewrite ?Hsame. auto.
Qed.

(** ** Web documents: runs of spaces *)

Section Spaces.

Lemma spaced_apart_cons (c : ascii) (s : str) :
  spaced_apart (c :: s) = negb (is_sp c && hd_sp s) && spaced_apart s.
Proof.
  destruct s as [|c' s]; simpl; [|reflexivity].
  rewrite andb_false_r. reflexivity.
Qed.

Lemma spaced_apart_tail (c : ascii) (s : str) :
  spaced_apart (c :: s) = true -> spaced_apart s = true.
Proof.
  rewrite spaced_apart_cons. intros H. apply andb_prop in H. apply H.
Qed.

Lemma spaced_apart_app (a b : str) :
  spaced_apart (a ++ b) = true -> spaced_apart a = true /\ spaced_apart b = true.
Proof.
  induction a as [|x a IH]; [simpl; auto|].
  rewrite <- app_comm_cons, !spaced_apart_cons. intros H.
  apply andb_prop in H. destruct H as (Hx & Hab).
  destruct (IH Hab) as (Ha & Hb). split; [|exact Hb].
  rewrite Ha, andb_true_r. destruct a as [|y a]; [|exact Hx].
  simpl. rewrite andb_false_r. reflexivity.
Qed.

Lemma spaced_apart_sep (a b : str) (c : ascii) :
  is_sp c = false -> spaced_apart a = true -> spaced_apart b = true ->
  spaced_apart (a ++ c :: b) = true.
Proof.
  intros Hc Ha Hb. induction a as [|x a IH].
  - simpl app. rewrite spaced_apart_cons, Hc, Hb. reflexivity.
  - rewrite <- app_comm_cons, spaced_apart_cons.
    rewrite spaced_apart_cons in Ha. apply andb_prop in Ha. destruct Ha as (Hx & Ha).
    rewrite (IH Ha), andb_true_r.
    destruct a as [|y a]; [|exact Hx].
    simpl. rewrite Hc, andb_false_r. reflexivity.
Qed.

Lemma spaced_apart_snoc (s : str) (c : ascii) :
  spaced_apart (s ++ [c]) = spaced_apart s && negb (hd_sp (rev s) && is_sp c).
Proof.
  induction s as [|x s IH]; [reflexivity|].
  rewrite <- app_comm_cons, !spaced_apart_cons, IH.
  destruct s as [|y s].
  - simpl. destruct (is_sp x), (is_sp c); reflexivity.
  - assert (Hhd : hd_sp (rev (x :: y :: s)) = hd_sp (rev (y :: s))).
    { simpl rev. destruct (rev s ++ [y]) eqn:E; [|reflexivity].
      destruct (rev s); discriminate. }
    rewrite Hhd. change (hd_sp ((y :: s) ++ [c])) with (is_sp y).
    change (hd_sp (y :: s)) with (is_sp y).
    generalize (spaced_apart (y :: s)) (hd_sp (rev (y :: s))). intros A B.
    destruct (is_sp x), (is_sp y), A, B, (is_sp c); reflexivity.
Qed.

Lemma spaced_apart_rev (s : str) : spaced_apart (rev s) = spaced_apart s.
Proof.
  induction s as [|x s IH]; [reflexivity|].
  simpl rev. rewrite spaced_apart_snoc, IH, rev_involutive, spaced_apart_cons.
  destruct (is_sp x), (hd_sp s), (spaced_apart s); reflexivity.
Qed.

Lemma spaced_apart_dropwhile (p : ascii -> bool) (s : str) :
  spaced_apart s = true -> spaced_apart (dropwhile p s) = true.
Proof.
  induction s as [|c s IH]; [auto|]. intros H. cbn [dropwhile].
  destruct (p c); [apply IH, (spaced_apart_tail c s H) | exact H].
Qed.

Lemma spaced_apart_strip (s : str) :
  spaced_apart s = true -> spaced_apart (strip s) = true.
Proof.
  intros H. unfold strip, rstrip, lstrip.
  rewrite spaced_apart_rev. apply spaced_apart_dropwhile.
  rewrite spaced_apart_rev. apply spaced_apart_dropwhile. exact H.
Qed.

Lemma spaced_apart_firstn (n : nat) (s : str) :
  spaced_apart s = true -> spaced_apart (firstn n s) = true.
Proof.
  intros H. rewrite <- (firstn_skipn n s) in H.
  apply spaced_apart_app in H. apply H.
Qed.

Lemma spaced_apart_join (cs : list str) :
  Forall (fun c => spaced_apart c = true) cs -> spaced_apart (join [LF] cs) = true.
Proof.
  induction 1 as [|c cs Hc Hcs IH]; [reflexivity|].
  destruct cs as [|c2 r]; [exact Hc|].
  change (join [LF] (c :: c2 :: r)) with (c ++ LF :: join [LF] (c2 :: r)).
  apply spaced_apart_sep; auto.
Qed.

(** The pieces of [split("  ")] have no two spaces side by side. *)
Lemma split2_from_apart (n : nat) :
  forall (s cur : str), (length s <= n)%nat ->
  spaced_apart cur = true -> hd_sp cur && hd_sp s = false ->
  Forall (fun piece => spaced_apart piece = true) (split2_from cur s).
Proof.
  induction n as [|n IH]; intros s cur Hlen Hcur Hhd.
  - destruct s; [|simpl in Hlen; lia]. simpl.
    constructor; [|constructor]. rewrite spaced_apart_rev. exact Hcur.
  - destruct s as [|c s]; simpl.
    + constructor; [|constructor]. rewrite spaced_apart_rev. exact Hcur.
    + simpl in Hlen.
      assert (Hpush : spaced_apart (c :: cur) = true).
      { rewrite spaced_apart_cons, Hcur, andb_true_r. simpl in Hhd.
        rewrite andb_comm, Hhd. reflexivity. }
      destruct (ascii_dec c SP) as [-> | Hc].
      * destruct s as [|c' s'].
        -- apply IH; [simpl; lia | exact Hpush | reflexivity].
        -- destruct (ascii_dec c' SP) as [-> | Hc'].
           ++ constructor; [rewrite spaced_apart_rev; exact Hcur|].
              apply IH; [simpl in *; lia | reflexivity | reflexivity].
           ++ apply IH; [simpl in *; lia | exact Hpush |].
              assert (Hn : is_sp c' = false)
                by (unfold is_sp; destruct (ascii_dec SP c'); congruence).
              cbn [hd_sp]. rewrite Hn. apply andb_false_r.
      * apply IH; [lia | exact Hpush |].
        assert (Hn : is_sp c = false)
          by (unfold is_sp; destruct (ascii_dec SP c); congruence).
        cbn [hd_sp]. rewrite Hn. reflexivity.
Qed.

(** A text with no two spaces side by side is its own only piece. *)
Lemma split2_from_whole (s : str) :
  forall cur, spaced_apart s = true -> split2_from cur s = [rev cur ++ s].
Proof.
  induction s as [|c s IH]; intros cur H; simpl.
  - rewrite app_nil_r. reflexivity.
  - pose proof (spaced_apart_tail c s H) as Hs.
    assert (Hgo : split2_from (c :: cur) s = [rev cur ++ c :: s]).
    { rewrite (IH (c :: cur) Hs). simpl. rewrite <- app_assoc. reflexivity. }
    destruct (ascii_dec c SP) as [-> | Hc]; [|exact Hgo].
    destruct s as [|c' s']; [exact Hgo|].
    destruct (ascii_dec c' SP) as [-> | Hc']; [|exact Hgo].
    simpl in H. discriminate H.
Qed.

Lemma clean_chunks_apart (text : str) :
  Forall (fun c => spaced_apart c = true) (clean_chunks text).
Proof.
  apply Forall_forall. intros x Hx. unfold clean_chunks in Hx.
  apply filter_In in Hx. destruct Hx as (Hin & _).
  apply in_flat_map in Hin. destruct Hin as (line & _ & Hin).
  apply in_map_iff in Hin. destruct Hin as (piece & <- & Hpiece).
  apply spaced_apart_strip.
  pose proof (split2_from_apart (length line) line [] (le_n _) eq_refl eq_refl) as H.
  rewrite Forall_forall in H. apply H. exact Hpiece.
Qed.

Lemma contains_two_spaces (s : str) :
  contains (lit "  ") s = negb (spaced_apart s).
Proof.
  induction s as [|c s IH]; [reflexivity|].
  cbn [contains]. rewrite IH, spaced_apart_cons.
  change (lit "  ") with [SP; SP]. cbn [startswith]. unfold is_sp at 1.
  destruct (ascii_dec SP c) as [Ec | Nc]; [|reflexivity].
  destruct s as [|c' s']; [reflexivity|].
  cbn [hd_sp]. unfold is_sp at 1.
  destruct (ascii_dec SP c'); simpl; [reflexivity|].
  destruct (spaced_apart (c' :: s')); reflexivity.
Qed.

Lemma clean_chunks_of_clean_text (cs : list str) :
  Forall good_chunk cs -> Forall (fun c => spaced_apart c = true) cs ->
  clean_chunks (join [LF] cs) = cs.
Proof.
  intros Hgood Hapart. unfold clean_chunks.
  rewrite (splitlines_join cs Hgood).
  assert (Hs : Forall stripped cs).
  { eapply Forall_impl; [|exact Hgood]. intros c Hc. apply Hc. }
  rewrite (map_strip_stripped cs Hs).
  clear Hs. induction Hgood as [|c cs Hc Hcs IH]; [reflexivity|].
  inversion Hapart as [|? ? Ha Hrest]; subst.
  cbn [flat_map]. unfold split2 at 1. rewrite (split2_from_whole c [] Ha).
  cbn [rev app map filter].
  destruct Hc as (Hne & Hst & _). unfold stripped in Hst. rewrite Hst.
  destruct c as [|h t]; [congruence|]. f_equal. apply IH. exact Hrest.
Qed.

End Spaces.

(** X15.  The content of a successful web-document outcome never has two
    spaces side by side. *)
Theorem X15_no_two_spaces_in_web_content (env : Env) (u : str) (w : World) :
  exists o w',
    _fetch_webpage env u w = (Ok o, w')
    /\ (success o = true -> contains (lit "  ") (content o) = false).
Proof.
  destruct (_fetch_webpage_content env u w) as (o & w' & Hrun & Hc).
  exists o, w'. split; [exact Hrun|]. intros Hs.
  destruct (Hc Hs) as (text & ->).
  rewrite contains_two_spaces. unfold slice_to, clean_text.
  rewrite spaced_apart_firstn; [reflexivity|].
  apply spaced_apart_join, clean_chunks_apart.
Qed.

(** X16.  Cleaning is idempotent: the cleaned text, cleaned again, is the
    same text, and its chunks are the lines of the cleaned text. *)
Theorem X16_clean_text_idempotent (text : str) :
  clean_text (clean_text text) = clean_text text
  /\ splitlines (clean_text text) = clean_chunks text.
Proof.
  unfold clean_text. split.
  - rewrite (clean_chunks_of_clean_text _ (clean_chunks_good text)
               (clean_chunks_apart text)).
    reflexivity.
  - apply splitlines_join, clean_chunks_good.
Qed.

(** ** The digest: prompt and answer *)

Example prompt_lengths_ex :
  length prompt_head = 787%nat /\ length prompt_tail = 41%nat.
Proof. split; reflexivity. Qed.

Example full_content_ex :
  full_content (corpus_papers small_corpus) (corpus_newsletters small_corpus)
  = join [LF]
      [ lit "=== EMAIL NEWSLETTERS ===" ++ [LF];
        [LF] ++ lit "--- Newsletter 1: Weekly ---" ++ [LF];
        lit "hi";
        [LF; LF] ++ lit "=== PAPERS FROM SLACK ===" ++ [LF];
        [LF] ++ lit "--- Paper 1: https://arxiv.org/abs/2401.00001 (failed to fetch) ---" ++ [LF];
        [LF] ++ lit "--- Paper 2: https://arxiv.org/abs/2401.00002 ---" ++ [LF];
        lit "Type: webpage" ++ [LF];
        lit "Abstract" ].
Proof. reflexivity. Qed.

Lemma text_blocks_concat (blocks : list Block) :
  forall acc,
  text_blocks blocks acc = acc ++ concat (map block_text (filter is_text blocks)).
Proof.
  induction blocks as [|b rest IH]; intros acc.
  - simpl. rewrite app_nil_r. reflexivity.
  - cbn [text_blocks filter]. unfold is_text at 1.
    destruct (str_eq_dec (block_type b) (lit "text")).
    + rewrite IH. cbn [map concat]. rewrite <- app_assoc. reflexivity.
    + apply IH.
Qed.

(** X17.  [generate_digest] sends one request, whose only message is the
    prompt built from the corpus, and returns the texts of the answer's
    blocks of type [text], joined in order with nothing between them;
    blocks of any other type (thinking) are left out.  An error of the API
    is not caught.  Apart from the line it prints, it changes nothing. *)
Theorem X17_digest_is_the_text_blocks (out : Outside)
    (papers : list RetrievalOutcome) (newsletters : list Newsletter) (st : Station) :
  generate_digest out papers newsletters st
  = (match anthropic_client out (digest_request (build_prompt papers newsletters)) with
     | Ok blocks => Ok (concat (map block_text (filter is_text blocks)))
     | Raise e => Raise e
     end,
     {| world := world st;
        notices := notices st ++ [Sending_content_to_Claude];
        outbox := outbox st |}).
Proof.
  unfold generate_digest, dbind, note, dcall, dret.
  destruct (anthropic_client out (digest_request (build_prompt papers newsletters)))
    as [blocks|e]; [|reflexivity].
  rewrite text_blocks_concat. reflexivity.
Qed.

Lemma newsletter_parts_view (ns ns' : list Newsletter) :
  Forall2 same_newsletter_view ns ns' ->
  forall i, newsletter_parts i ns = newsletter_parts i ns'.
Proof.
  induction 1 as [|n n' ns ns' (Hs & Hb) Hrest IH]; intros i; simpl; [reflexivity|].
  rewrite Hs, Hb, IH. reflexivity.
Qed.

Lemma paper_parts_view (ps ps' : list RetrievalOutcome) :
  Forall2 same_paper_view ps ps' ->
  forall i, paper_parts i ps = paper_parts i ps'.
Proof.
  induction 1 as [|p p' ps ps' (Hu & Hs & Hc) Hrest IH]; intros i; simpl; [reflexivity|].
  rewrite IH. f_equal. unfold paper_part. rewrite <- Hs, <- Hu.
  destruct (success p); [|reflexivity].
  destruct (Hc eq_refl) as (-> & ->). reflexivity.
Qed.

(** X18.  The prompt depends on the corpus only through: the subject of
    each newsletter and the first 10000 characters of its body; the URL of
    each paper, whether it succeeded and, if it did, its kind and the first
    30000 characters of its content.  What a paper's content holds beyond
    30000 characters, and the content and error text of a failed paper,
    never reach the model. *)
Theorem X18_prompt_reads_capped_views (papers papers' : list RetrievalOutcome)
    (newsletters newsletters' : list Newsletter) :
  Forall2 same_paper_view papers papers' ->
  Forall2 same_newsletter_view newsletters newsletters' ->
  build_prompt papers newsletters = build_prompt papers' newsletters'.
Proof.
  intros Hp Hn. unfold build_prompt, full_content, content_parts.
  rewrite (newsletter_parts_view _ _ Hn 1), (paper_parts_view _ _ Hp 1).
  destruct Hp, Hn; reflexivity.
Qed.

Lemma X18_prompt_views_witness :
  build_prompt [failed_paper older_url (lit "partial text") (lit "timed out");
                good_paper newer_url (lit "Abstract")]
               (corpus_newsletters small_corpus)
  = build_prompt (corpus_papers small_corpus) (corpus_newsletters small_corpus).
Proof.
  apply X18_prompt_reads_capped_views.
  - repeat constructor; simpl; try discriminate.
  - repeat constructor.
Defined.

Lemma paper_parts_nth (papers : list RetrievalOutcome) :
  forall i k paper,
  nth_error papers k = Some paper ->
  incl (paper_part (i + k) paper) (paper_parts i papers).
Proof.
  induction papers as [|p rest IH]; intros i k paper Hk; [destruct k; discriminate|].
  destruct k as [|k]; simpl in Hk.
  - injection Hk as ->. rewrite Nat.add_0_r. simpl. apply incl_appl, incl_refl.
  - simpl. apply incl_appr. replace (i + S k)%nat with (S i + k)%nat by lia.
    apply IH. exact Hk.
Qed.

(** X19.  Papers are numbered by their place among all resolved references,
    failed ones included: the heading of the paper at place [k] (from 0)
    carries the number [k + 1] whatever became of the papers before it. *)
Theorem X19_papers_numbered_by_place (papers : list RetrievalOutcome)
    (newsletters : list Newsletter) (k : nat) (paper : RetrievalOutcome) :
  nth_error papers k = Some paper ->
  incl (paper_part (S k) paper) (content_parts papers newsletters).
Proof.
  intros Hk. unfold content_parts. apply incl_appr.
  destruct papers as [|p rest]; [destruct k; discriminate|].
  apply incl_tl. apply (paper_parts_nth (p :: rest) 1 k paper Hk).
Qed.

Lemma X19_papers_numbered_witness :
  incl (paper_part 2 (good_paper newer_url (lit "Abstract")))
       (content_parts (corpus_papers small_corpus) (corpus_newsletters small_corpus)).
Proof.
  apply (X19_papers_numbered_by_place (corpus_papers small_corpus)
           (corpus_newsletters small_corpus) 1 (good_paper newer_url (lit "Abstract"))).
  reflexivity.
Defined.

(** ** Delivery *)

Lemma send_digest_effect (out : Outside) (sender : EmailSender) (digest : str)
    (st : Station) :
  exists r st',
    send_digest out sender digest st = (r, st')
    /\ world st' = world st
    /\ ((r = Ok tt
         /\ session_ok out sender (digest_email out sender digest)
         /\ smtp_quit (smtp out) = None
         /\ outbox st' = outbox st ++ [digest_email out sender digest]
         /\ notices st'
            = notices st ++ [Digest_sent_successfully (recipient_email sender)])
        \/ (exists e, r = Raise e
              /\ ~ session_ok out sender (digest_email out sender digest)
              /\ outbox st' = outbox st
              /\ notices st' = notices st ++ [Error_sending_email e])
        \/ (exists e, r = Raise e
              /\ session_ok out sender (digest_email out sender digest)
              /\ smtp_quit (smtp out) = Some e
              /\ outbox st' = outbox st ++ [digest_email out sender digest]
              /\ notices st' = notices st ++ [Error_sending_email e])).
Proof.
  unfold send_digest, dtry, dbind, with_session, dstep, session_ok.
  destruct (smtp_connect (smtp out) (smtp_server sender) (smtp_port sender)) as [e|].
  { do 2 eexists. split; [reflexivity|]. split; [reflexivity|]. right. left. exists e.
    repeat split; try reflexivity. intros (H & _). discriminate. }
  destruct (smtp_starttls (smtp out)) as [e|].
  { destruct (smtp_quit (smtp out)) as [q|];
      do 2 eexists; (split; [reflexivity|]); (split; [reflexivity|]); right; left;
      eexists; repeat split; try reflexivity; intros (_ & H & _); discriminate. }
  destruct (smtp_login (smtp out) (sender_email sender) (sender_password sender)) as [e|].
  { destruct (smtp_quit (smtp out)) as [q|];
      do 2 eexists; (split; [reflexivity|]); (split; [reflexivity|]); right; left;
      eexists; repeat split; try reflexivity; intros (_ & _ & H & _); discriminate. }
  destruct (smtp_send_message (smtp out) (digest_email out sender digest)) as [e|].
  { destruct (smtp_quit (smtp out)) as [q|];
      do 2 eexists; (split; [reflexivity|]); (split; [reflexivity|]); right; left;
      eexists; repeat split; try reflexivity; intros (_ & _ & _ & H); discriminate. }
  destruct (smtp_quit (smtp out)) as [q|].
  - do 2 eexists. split; [reflexivity|]. split; [reflexivity|]. right. right. exists q.
    repeat split; reflexivity.
  - do 2 eexists. split; [reflexivity|]. split; [reflexivity|]. left.
    repeat split; reflexivity.
Qed.

(** X20.  [send_digest] returns normally exactly when every step of the
    mail session went through and so did the [QUIT] that ends it, and
    then the server has accepted one message, the one built from the
    digest.  Otherwise it raises, after printing the exception it raises,
    in one of two ways: a step up to [send_message] failed, and no message
    was accepted; or every step went through and the closing [QUIT] was
    answered with an error, and then that error is raised although the
    message was accepted.  It touches no file. *)
Theorem X20_send_digest_delivers_or_raises (out : Outside) (sender : EmailSender)
    (digest : str) (st : Station) :
  exists r st',
    send_digest out sender digest st = (r, st')
    /\ world st' = world st
    /\ ((r = Ok tt
         /\ session_ok out sender (digest_email out sender digest)
         /\ smtp_quit (smtp out) = None
         /\ outbox st' = outbox st ++ [digest_email out sender digest]
         /\ notices st'
            = notices st ++ [Digest_sent_successfully (recipient_email sender)])
        \/ (exists e, r = Raise e
              /\ ~ session_ok out sender (digest_email out sender digest)
              /\ outbox st' = outbox st
              /\ notices st' = notices st ++ [Error_sending_email e])
        \/ (exists e, r = Raise e
              /\ session_ok out sender (digest_email out sender digest)
              /\ smtp_quit (smtp out) = Some e
              /\ outbox st' = outbox st ++ [digest_email out sender digest]
              /\ notices st' = notices st ++ [Error_sending_email e])).
Proof.
  apply send_digest_effect.
Qed.

Lemma replace_line_breaks (new s : str) :
  replace [LF] new s
  = flat_map (fun c => if ascii_dec LF c then new else [c]) s.
Proof.
  unfold replace. induction s as [|c s IH]; [reflexivity|].
  cbn [replace_from startswith flat_map length Nat.sub].
  destruct (ascii_dec LF c); rewrite IH; reflexivity.
Qed.

(** X21.  In the HTML part every line break of the digest has become
    [<br>]: the text between the tags has no line break left, each other
    character is kept as it is (markup in the digest is not escaped), and
    the text is longer than the digest by three characters for each line
    break. *)
Theorem X21_html_part_has_no_line_break (digest : str) :
  html_content digest
  = flat_map (fun c => if ascii_dec LF c then lit "<br>" else [c]) digest
  /\ Forall (fun c => c <> LF) (html_content digest)
  /\ length (html_content digest)
     = (length digest + 3 * count_occ ascii_dec digest LF)%nat.
Proof.
  unfold html_content. rewrite replace_line_breaks. split; [reflexivity|].
  split.
  - induction digest as [|c d IH]; [constructor|].
    cbn [flat_map]. apply Forall_app. split; [|exact IH].
    destruct (ascii_dec LF c) as [E|N].
    + repeat constructor; discriminate.
    + constructor; [congruence | constructor].
  - induction digest as [|c d IH]; [reflexivity|].
    cbn [flat_map count_occ]. rewrite length_app, IH.
    destruct (ascii_dec LF c) as [E|N].
    + subst c. destruct (ascii_dec LF LF); [|congruence]. simpl. lia.
    + destruct (ascii_dec c LF); [congruence|]. simpl. lia.
Qed.

Lemma generate_digest_run (out : Outside) (papers : list RetrievalOutcome)
    (newsletters : list Newsletter) (st : Station) :
  generate_digest out papers newsletters st
  = (match anthropic_client out (digest_request (build_prompt papers newsletters)) with
     | Ok blocks => Ok (concat (map block_text (filter is_text blocks)))
     | Raise e => Raise e
     end,
     {| world := world st;
        notices := notices st ++ [Sending_content_to_Claude];
        outbox := outbox st |}).
Proof.
  unfold generate_digest, dbind, note, dcall, dret.
  destruct (anthropic_client out (digest_request (build_prompt papers newsletters)))
    as [blocks|e]; [|reflexivity].
  rewrite text_blocks_concat. reflexivity.
Qed.

(** X22.  The digest is on disk before delivery is tried.  When the model
    answers and the text can be encoded, [/tmp/digest.txt] holds the
    encoded digest when steps 5 and 6 end, however they end, and no other
    file is touched.  If the sender cannot be set up, the run raises and
    no message was accepted.  If the run ends normally, one message was
    accepted.  A run that raises may have had its message accepted all the
    same (the closing [QUIT] of the session failed): at the end the server
    has accepted no message or one. *)
Theorem X22_digest_saved_before_delivery (out : Outside) (env : Env)
    (corpus : Corpus) (st : Station) (blocks : list Block) (data : bytes) :
  anthropic_client out
    (digest_request (build_prompt (corpus_papers corpus) (corpus_newsletters corpus)))
  = Ok blocks ->
  encode_text out (concat (map block_text (filter is_text blocks))) = Ok data ->
  exists r st',
    main_from_step_5 out env corpus st = (r, st')
    /\ fs (world st') digest_path = Some data
    /\ (forall p, p <> digest_path -> fs (world st') p = fs (world st) p)
    /\ (r = Ok tt -> exists msg, outbox st' = outbox st ++ [msg])
    /\ (forall e, EmailSender_init out = Raise e ->
          r = Raise e /\ outbox st' = outbox st)
    /\ (outbox st' = outbox st \/ exists msg, outbox st' = outbox st ++ [msg]).
Proof.
  intros Hapi Henc. unfold main_from_step_5.
  unfold dbind at 1, note at 1. unfold dbind at 1.
  rewrite generate_digest_run, Hapi. cbn [world notices outbox].
  set (digest := concat (map block_text (filter is_text blocks))) in *.
  unfold dbind at 1, in_world at 1, write_text, bind, call, write_file.
  cbn [world notices outbox fs stdout]. rewrite Henc.
  cbn [world notices outbox fs stdout].
  unfold dbind at 1, note at 1. unfold dbind at 1, note at 1.
  cbn [world notices outbox fs stdout].
  assert (Hsame : forall (A : Type) (x y : A),
            (if str_eq_dec digest_path digest_path then x else y) = x).
  { intros A x y. destruct (str_eq_dec digest_path digest_path); [reflexivity|congruence]. }
  assert (Hother : forall (A : Type) (x y : A) p, p <> digest_path ->
            (if str_eq_dec p digest_path then x else y) = y).
  { intros A x y p Hp. destruct (str_eq_dec p digest_path); [contradiction|reflexivity]. }
  unfold dbind at 1, dcall at 1.
  destruct (EmailSender_init out) as [sender|e].
  2:{ do 2 eexists. split; [reflexivity|]. cbn [world fs outbox].
      split; [apply Hsame|]. split; [intros p Hp; rewrite !Hother by exact Hp; reflexivity|].
      split; [discriminate|]. split; [intros e' [= <-]; auto|]. left. reflexivity. }
  unfold dbind at 1.
  match goal with |- context [send_digest out sender digest ?s0] =>
    destruct (send_digest_effect out sender digest s0)
      as (r & st1 & Hsend & Hw & Hcase); rewrite Hsend end.
  destruct Hcase as [(-> & _ & _ & Hout & _)
                    | [(e & -> & _ & Hout & _) | (e & -> & _ & _ & Hout & _)]].
  - unfold dbind, note. do 2 eexists. split; [reflexivity|].
    cbn [world fs outbox]. rewrite Hw, Hout. cbn [world fs outbox].
    split; [apply Hsame|]. split; [intros p Hp; rewrite !Hother by exact Hp; reflexivity|].
    split; [intros _; eexists; reflexivity|]. split; [discriminate|].
    right. eexists. reflexivity.
  - do 2 eexists. split; [reflexivity|].
    rewrite Hw, Hout. cbn [world fs outbox].
    split; [apply Hsame|]. split; [intros p Hp; rewrite !Hother by exact Hp; reflexivity|].
    split; [discriminate|]. split; [discriminate|]. left. reflexivity.
  - do 2 eexists. split; [reflexivity|].
    rewrite Hw, Hout. cbn [world fs outbox].
    split; [apply Hsame|]. split; [intros p Hp; rewrite !Hother by exact Hp; reflexivity|].
    split; [discriminate|]. split; [discriminate|]. right. eexists. reflexivity.
Qed.

Lemma X22_digest_saved_witness :
  exists r st',
    main_from_step_5 (sample_out answering server_rejecting) mail_env small_corpus start
    = (r, st')
    /\ fs (world st') digest_path = Some (map byte_of_ascii (lit "Digest: nothing new."))
    /\ (forall p, p <> digest_path -> fs (world st') p = fs (world start) p)
    /\ (r = Ok tt -> exists msg, outbox st' = outbox start ++ [msg])
    /\ (forall e, EmailSender_init (sample_out answering server_rejecting) = Raise e ->
          r = Raise e /\ outbox st' = outbox start)
    /\ (outbox st' = outbox start \/ exists msg, outbox st' = outbox start ++ [msg]).
Proof.
  apply (X22_digest_saved_before_delivery (sample_out answering server_rejecting)
           mail_env small_corpus start sample_answer).
  - reflexivity.
  - reflexivity.
Defined.

(** X23.  When the request to the model fails, the run ends there: the
    exception is raised out of steps 5 and 6, no file is written and no
    mail session is opened. *)
Theorem X23_no_digest_no_delivery (out : Outside) (env : Env) (corpus : Corpus)
    (st : Station) (e : Exn) :
  anthropic_client out
    (digest_request (build_prompt (corpus_papers corpus) (corpus_newsletters corpus)))
  = Raise e ->
  main_from_step_5 out env corpus st
  = (Raise e,
     {| world := world st;
        notices := notices st ++ [Generating_digest; Sending_content_to_Claude];
        outbox := outbox st |}).
Proof.
  intros Hapi. unfold main_from_step_5.
  unfold dbind at 1, note at 1. unfold dbind at 1.
  rewrite generate_digest_run, Hapi. cbn [world notices outbox].
  rewrite <- app_assoc. reflexivity.
Qed.

Lemma X23_no_digest_witness :
  main_from_step_5 (sample_out not_answering server_up) mail_env small_corpus start
  = (Raise overloaded,
     {| world := world start;
        notices := notices start ++ [Generating_digest; Sending_content_to_Claude];
        outbox := outbox start |}).
Proof.
  apply (X23_no_digest_no_delivery (sample_out not_answering server_up) mail_env
           small_corpus start overloaded).
  reflexivity.
Defined.

Example full_run_ex :
  main_from_step_5 (sample_out answering server_up) mail_env small_corpus start
  = (Ok tt,
     {| world := {| fs := fun p => if str_eq_dec p digest_path
                                   then Some (map byte_of_ascii (lit "Digest: nothing new."))
                                   else if str_eq_dec p digest_path then Some [] else None;
                    stdout := [] |};
        notices := [ Generating_digest; Sending_content_to_Claude; Digest_saved;
                     Sending_digest_via_email;
                     Digest_sent_successfully (Some (lit "team@example.org"));
                     Completed_successfully; Finished_at 1762128000 ];
        outbox := [ {| email_subject := lit "AI Safety Weekly Digest - 2025-11-03";
                       email_from := Some (lit "digest@example.org");
                       email_to := Some (lit "team@example.org");
                       email_parts :=
                         [ (lit "plain", lit "Digest: nothing new.");
                           (lit "html",
                            lit "<html><body><pre style=" ++ [DQ]
                              ++ lit "font-family: sans-serif;" ++ [DQ]
                              ++ lit ">Digest: nothing new.</pre></body></html>") ] |} ]
     |}).
Proof. reflexivity. Qed.

(** The message is accepted and the run still ends with an error, the one
    of the closing [QUIT]. *)
Example quit_failure_ex :
  fst (main_from_step_5 (sample_out answering server_closing_badly) mail_env
         small_corpus start)
  = Raise closing_error
  /\ length (outbox (snd (main_from_step_5 (sample_out answering server_closing_badly)
                            mail_env small_corpus start))) = 1
  /\ notices (snd (main_from_step_5 (sample_out answering server_closing_badly)
                     mail_env small_corpus start))
     = [ Generating_digest; Sending_content_to_Claude; Digest_saved;
         Sending_digest_via_email; Error_sending_email closing_error ].
Proof. repeat split; vm_compute; reflexivity. Qed.

Lemma main_from_step_5_starts (out : Outside) (env : Env) (corpus : Corpus)
    (st : Station) :
  exists more,
    notices (snd (main_from_step_5 out env corpus st))
    = notices st ++ [Generating_digest; Sending_content_to_Claude] ++ more.
Proof.
  unfold main_from_step_5.
  unfold dbind at 1, note at 1. unfold dbind at 1.
  rewrite generate_digest_run. cbn [world notices outbox].
  destruct (anthropic_client out _) as [blocks|e].
  2:{ exists []. simpl. rewrite <- app_assoc. reflexivity. }
  unfold dbind at 1, in_world at 1, write_text, bind, call, write_file.
  cbn [world notices outbox fs stdout].
  destruct (encode_text out _) as [data|e].
  2:{ exists []. simpl. rewrite <- app_assoc. reflexivity. }
  cbn [world notices outbox fs stdout].
  unfold dbind at 1, note at 1. unfold dbind at 1, note at 1.
  cbn [world notices outbox fs stdout].
  unfold dbind at 1, dcall at 1.
  destruct (EmailSender_init out) as [sender|e].
  2:{ exists [Digest_saved; Sending_digest_via_email]. simpl.
      rewrite <- !app_assoc. reflexivity. }
  unfold dbind at 1.
  match goal with |- context [send_digest out sender ?d ?s0] =>
    destruct (send_digest_effect out sender d s0)
      as (r & st1 & Hsend & _ & Hcase); rewrite Hsend end.
  destruct Hcase as [(-> & _ & _ & _ & Hn)
                    | [(e & -> & _ & _ & Hn) | (e & -> & _ & _ & _ & Hn)]].
  - unfold dbind, note. cbn [snd notices]. rewrite Hn. cbn [notices].
    eexists. rewrite <- !app_assoc. reflexivity.
  - cbn [snd]. rewrite Hn. cbn [notices].
    eexists. rewrite <- !app_assoc. reflexivity.
  - cbn [snd]. rewrite Hn. cbn [notices].
    eexists. rewrite <- !app_assoc. reflexivity.
Qed.

(** X24.  Failed resolutions never stop the run.  Once the two collectors
    have returned, [main] goes on to step 5 with a corpus that holds the
    newsletters and one outcome for each of the first 50 references, failed
    or not, and the request to the model is made. *)
Theorem X24_run_reaches_the_model (out : Outside) (env : Env) (client : WebClient)
    (gmail : option GmailService) (date_filter : str) (st : Station)
    (days_back : Z) (slack_urls : list str) (newsletters : list Newsletter)
    (w1 w2 : World) :
  py_int out (environ_get out (lit "DAYS_BACK") (lit "7")) = Ok days_back ->
  fetch_slack_urls env client
    (environ_get out (lit "SLACK_CHANNEL_NAME") (lit "papers-running-list"))
    days_back (world st) = (Ok slack_urls, w1) ->
  fetch_gmail_newsletters env gmail
    (environ_get out (lit "GMAIL_LABEL") (lit "AI-Safety-Newsletters"))
    date_filter w1 = (Ok newsletters, w2) ->
  exists papers w4,
    map url papers = firstn 50 slack_urls
    /\ main_all out env client gmail date_filter st
       = main_from_step_5 out env
           {| corpus_papers := papers; corpus_newsletters := newsletters |}
           {| world := w4; notices := notices st; outbox := outbox st |}
    /\ In Sending_content_to_Claude
          (notices (snd (main_all out env client gmail date_filter st))).
Proof.
  intros Hdays Hslack Hgmail.
  destruct (resolve_papers_returns env slack_urls w2) as (papers & w3 & Hres & Hurls & _).
  assert (Hrun : main_all out env client gmail date_filter st
                 = main_from_step_5 out env
                     {| corpus_papers := papers; corpus_newsletters := newsletters |}
                     {| world := {| fs := fs w3;
                                    stdout := stdout w3
                                      ++ [Successfully_processed
                                            (length (filter success papers))] |};
                        notices := notices st; outbox := outbox st |}).
  { unfold main_all. unfold dbind at 1, dcall at 1. rewrite Hdays.
    unfold dbind at 1, in_world at 1, main.
    unfold bind at 1. rewrite Hslack.
    unfold bind at 1. rewrite Hgmail.
    unfold bind at 1. rewrite Hres.
    reflexivity. }
  eexists papers, _. split; [exact Hurls|]. split; [exact Hrun|].
  rewrite Hrun.
  match goal with |- context [main_from_step_5 out env ?c ?s0] =>
    destruct (main_from_step_5_starts out env c s0) as (more & ->) end.
  rewrite !in_app_iff. right. left. right. left. reflexivity.
Qed.

Lemma X24_run_reaches_the_model_witness :
  exists papers w4,
    map url papers = firstn 50 [newer_url]
    /\ main_all (sample_out answering server_up) mail_env paged_client None
         (lit "2025/10/27") start
       = main_from_step_5 (sample_out answering server_up) mail_env
           {| corpus_papers := papers; corpus_newsletters := [] |}
           {| world := w4; notices := notices start; outbox := outbox start |}
    /\ In Sending_content_to_Claude
          (notices (snd (main_all (sample_out answering server_up) mail_env
                           paged_client None (lit "2025/10/27") start))).
Proof.
  apply (X24_run_reaches_the_model (sample_out answering server_up) mail_env
           paged_client None (lit "2025/10/27") start 7 [newer_url] []
           {| fs := fs empty_world; stdout := [Found_unique_URLs 1] |}
           {| fs := fs empty_world;
              stdout := [Found_unique_URLs 1; Gmail_not_configured] |}).
  - reflexivity.
  - reflexivity.
  - reflexivity.
Defined.

(** * Failures of the resolver, and the arXiv rewrite *)

Lemma _download_pdf_failed (env : Env) (pdf_url original_url : str) (e : Exn)
    (w : World) :
  pdf_fails env pdf_url e ->
  exists w',
    _download_pdf env pdf_url original_url w
    = (Ok {| url := original_url; type := lit "pdf"; content := [];
             success := false; error := Some (exn_str e) |}, w').
Proof.
  intros Hfail.
  unfold _download_pdf, try_except, bind, call, raise_for_status.
  destruct Hfail as [Hget | (response & Hget & Hrest)]; rewrite Hget.
  { eexists. reflexivity. }
  destruct Hrest as [Hst | (Hst & Hrest)]; rewrite Hst; simpl.
  { eexists. reflexivity. }
  unfold read_file. simpl.
  destruct (str_eq_dec pdf_path pdf_path) as [_|N]; [|congruence].
  destruct Hrest as [Hopen | (before & page & after & Hopen & Hall & Hbad)];
    rewrite Hopen.
  { eexists. reflexivity. }
  rewrite (pages_text_fails before page after e Hall Hbad). simpl.
  eexists. reflexivity.
Qed.

Lemma _download_pdf_pages (env : Env) (pdf_url original_url : str) (w : World)
    (response : Response) (pages : list Page) :
  requests_get env pdf_url None = Ok response ->
  status_error response = None ->
  pdfplumber_pages env (response_content response) = Ok pages ->
  Forall page_ok pages ->
  exists w',
    _download_pdf env pdf_url original_url w
    = (Ok {| url := original_url; type := lit "pdf";
             content := slice_to PDF_CAP (page_texts pages);
             success := true; error := None |}, w').
Proof.
  intros Hget Hst Hpages Hall.
  unfold _download_pdf, try_except, bind, call, raise_for_status.
  rewrite Hget, Hst. simpl. unfold read_file. simpl.
  destruct (str_eq_dec pdf_path pdf_path) as [_|N]; [|congruence].
  rewrite Hpages. rewrite (pages_text_all pages Hall). simpl.
  unfold os_remove. simpl. eexists. reflexivity.
Qed.


Lemma download_paper_content_branch (env : Env) (u : str) (w : World) :
  download_paper_content env u w
  = (if contains (lit "arxiv.org") u then _download_pdf env (arxiv_pdf_url u) u
     else if endswith (lit ".pdf") u then _download_pdf env u u
     else _fetch_webpage env u)
      {| fs := fs w; stdout := stdout w ++ [Processing_URL u] |}.
Proof.
  reflexivity.
Qed.






(** C8 (as the code has it).  The repository the resolver knows is arXiv.
    A reference that contains [arxiv.org] and [/abs/] is fetched as a PDF:
    the one GET that decides its outcome is sent, without the header of the
    web fetch, to the reference with every [/abs/] replaced by [/pdf/] and
    [.pdf] added at the end.  If that GET raises, or answers with an error
    status, or its bytes cannot be opened as a PDF, or a page cannot be
    read, the outcome is the failure with that exception; if every page
    gives its text, the outcome is a success whose content is the text of
    the pages of that answer, cut at 100000 characters.  The outcome is of
    type [pdf] and carries the reference as it was given. *)
Theorem C8_arxiv_abstract_fetched_as_pdf (env : Env) (u : str) (w : World) :
  contains (lit "arxiv.org") u = true ->
  contains (lit "/abs/") u = true ->
  exists o w',
    download_paper_content env u w = (Ok o, w')
    /\ url o = u
    /\ type o = lit "pdf"
    /\ match requests_get env (replace (lit "/abs/") (lit "/pdf/") u ++ lit ".pdf") None with
       | Raise e => failed o e
       | Ok response =>
           match status_error response with
           | Some e => failed o e
           | None =>
               match pdfplumber_pages env (response_content response) with
               | Raise e => failed o e
               | Ok pages =>
                   (Forall page_ok pages ->
                    success o = true
                    /\ content o = slice_to PDF_CAP (page_texts pages))
                   /\ (forall before page after e,
                         pages = before ++ page :: after ->
                         Forall page_ok before ->
                         extract_text page = Raise e ->
                         failed o e)
               end
           end
       end.
Proof.
  intros Harxiv Habs.
  rewrite download_paper_content_branch, Harxiv.
  unfold arxiv_pdf_url. rewrite Habs.
  set (pdf_url := replace (lit "/abs/") (lit "/pdf/") u ++ lit ".pdf").
  set (w0 := {| fs := fs w; stdout := stdout w ++ [Processing_URL u] |}).
  destruct (requests_get env pdf_url None) as [response|e] eqn:Hget.
  2:{ destruct (_download_pdf_failed env pdf_url u e w0) as (w' & ->);
        [left; exact Hget|].
      do 2 eexists. split; [reflexivity|]. repeat split. }
  destruct (status_error response) as [e|] eqn:Hst.
  { destruct (_download_pdf_failed env pdf_url u e w0) as (w' & ->);
      [right; exists response; auto|].
    do 2 eexists. split; [reflexivity|]. repeat split. }
  destruct (pdfplumber_pages env (response_content response)) as [pages|e] eqn:Hopen.
  2:{ destruct (_download_pdf_failed env pdf_url u e w0) as (w' & ->);
        [right; exists response; auto|].
      do 2 eexists. split; [reflexivity|]. repeat split. }
  destruct (pages_cases pages) as [Hall | (before & bad & after & e & Hpages & Hall & Hbad)].
  - destruct (_download_pdf_pages env pdf_url u w0 response pages Hget Hst Hopen Hall)
      as (w' & ->).
    do 2 eexists. split; [reflexivity|]. split; [reflexivity|]. split; [reflexivity|].
    split; [intros _; split; reflexivity|].
    intros before page after e Hpages Hbefore Hbad. exfalso.
    rewrite Hpages in Hall. apply Forall_app in Hall. destruct Hall as (_ & Hrest).
    inversion Hrest as [|? ? (t & Ht) _]. congruence.
  - destruct (_download_pdf_failed env pdf_url u e w0) as (w' & ->).
    { right. exists response. split; [exact Hget|]. right. split; [exact Hst|].
      right. exists before, bad, after. rewrite Hopen, Hpages. auto. }
    do 2 eexists. split; [reflexivity|]. split; [reflexivity|]. split; [reflexivity|].
    split.
    + intros Hall'. exfalso.
      rewrite Hpages in Hall'. apply Forall_app in Hall'. destruct Hall' as (_ & Hrest).
      inversion Hrest as [|? ? (t & Ht) _]. congruence.
    + intros before' page' after' e' Hpages' Hbefore' Hbad'.
      assert (He : e' = e).
      { assert (H1 : pages_text pages [] empty_world = (Raise e', empty_world)).
        { rewrite Hpages'. apply pages_text_fails; assumption. }
        assert (H2 : pages_text pages [] empty_world = (Raise e, empty_world)).
        { rewrite Hpages. apply pages_text_fails; assumption. }
        congruence. }
      subst e'. repeat split.
Qed.

Lemma C8_arxiv_abstract_witness :
  exists o w',
    download_paper_content arxiv_env arxiv_abs_url empty_world = (Ok o, w')
    /\ url o = arxiv_abs_url
    /\ type o = lit "pdf"
    /\ match requests_get arxiv_env
               (replace (lit "/abs/") (lit "/pdf/") arxiv_abs_url ++ lit ".pdf") None with
       | Raise e => failed o e
       | Ok response =>
           match status_error response with
           | Some e => failed o e
           | None =>
               match pdfplumber_pages arxiv_env (response_content response) with
               | Raise e => failed o e
               | Ok pages =>
                   (Forall page_ok pages ->
                    success o = true
                    /\ content o = slice_to PDF_CAP (page_texts pages))
                   /\ (forall before page after e,
                         pages = before ++ page :: after ->
                         Forall page_ok before ->
                         extract_text page = Raise e ->
                         failed o e)
               end
           end
       end.
Proof.
  exact (C8_arxiv_abstract_fetched_as_pdf arxiv_env arxiv_abs_url empty_world
           eq_refl eq_refl).
Defined.
